(** * terraform-provider-azurerm: network security group and automation
    account resource handlers

    A shallow embedding of
      - azurerm/resource_arm_network_security_group.go
      - azurerm/resource_arm_automation_account.go
      - the name-validation test table of the container registry resource
    together with the properties the specification states about them. *)

From Stdlib Require Import ZArith Lia Ascii String.
From stdpp Require Import gmap strings list fin_maps.

Local Open Scope Z_scope.
Local Open Scope string_scope.
Local Open Scope list_scope.

(** ** Go values *)

(** [interface{}] values as they occur in configuration data: strings, ints,
    [[]interface{}] and [map[string]interface{}]; [VNil] is the nil
    interface. *)
#[local] Unset Elimination Schemes.
Inductive value : Type :=
| VNil
| VString (s : string)
| VInt (z : Z)
| VList (l : list value)
| VMap (m : gmap string value).
#[local] Set Elimination Schemes.

(** A Go [error] value. [fmt.Errorf] keeps its format string and its
    arguments; errors that come from the SDK client or from helpers outside
    these files are opaque. *)
Inductive error : Type :=
| ExternalError (msg : string)
| Errorf (format : string) (args : list fmtarg)
with fmtarg : Type :=
| ArgString (s : string)
| ArgError (e : error).

(** A computation either yields a value or panics (failed type assertion,
    nil dereference, index out of range). *)
Inductive result (A : Type) : Type :=
| Ok (a : A)
| Panic.
Arguments Ok {A} a.
Arguments Panic {A}.

Definition rbind {A B} (r : result A) (k : A → result B) : result B :=
  match r with
  | Ok a => k a
  | Panic => Panic
  end.

Notation "x ←! r ; k" := (rbind r (λ x, k))
  (at level 20, r at level 100, k at level 200, right associativity,
   format "x  ←!  r ;  '/' k").

(** [v.(string)], [v.(int)], [v.([]interface{})] and
    [v.(map[string]interface{})] in their single-result form: they panic on
    any other dynamic type, the nil interface included. A missing map key
    reads as the nil interface. *)
Definition assert_string (v : option value) : result string :=
  match v with Some (VString s) => Ok s | _ => Panic end.
Definition assert_int (v : option value) : result Z :=
  match v with Some (VInt z) => Ok z | _ => Panic end.
Definition assert_list (v : option value) : result (list value) :=
  match v with Some (VList l) => Ok l | _ => Panic end.
Definition assert_map (v : option value) : result (gmap string value) :=
  match v with Some (VMap m) => Ok m | _ => Panic end.

(** [*p] for a pointer [p]. *)
Definition deref {A} (p : option A) : result A :=
  match p with Some a => Ok a | None => Panic end.

(** [int32(z)]: truncation to 32 bits, read as a signed number. *)
Definition int32 (z : Z) : Z := (z + 2 ^ 31) mod 2 ^ 32 - 2 ^ 31.

(** [int(z)] for an [int32] [z] is the same number. *)
Definition int_of_int32 (z : Z) : Z := z.

(** ** SDK shapes *)

Module autorest.
(** [autorest.Response] embeds a [*http.Response]; only its status code is
    looked at. [None] is the nil pointer. *)
Record Response : Type := { StatusCode : option Z }.
End autorest.

Definition Tags : Type := option (gmap string (option string)).

Module network.
Definition SecurityRuleAccessAllow := "Allow".
Definition SecurityRuleAccessDeny := "Deny".
Definition SecurityRuleDirectionInbound := "Inbound".
Definition SecurityRuleDirectionOutbound := "Outbound".

Record SecurityRulePropertiesFormat : Type := {
  Description : option string;
  Protocol : string;
  SourcePortRange : option string;
  DestinationPortRange : option string;
  SourceAddressPrefix : option string;
  DestinationAddressPrefix : option string;
  Access : string;
  Priority : option Z;
  Direction : string
}.

Record SecurityRule : Type := {
  rule_Name : option string;
  rule_Properties : option SecurityRulePropertiesFormat
}.

Record SecurityGroupPropertiesFormat : Type := {
  SecurityRules : option (list SecurityRule);
  ProvisioningState : option string
}.

Record SecurityGroup : Type := {
  Response : autorest.Response;
  ID : option string;
  Name : option string;
  Location : option string;
  Tags_ : Tags;
  Properties : option SecurityGroupPropertiesFormat
}.
End network.

(** ** Resource data *)

(** [schema.ResourceData]: the resource ID and the attribute values. *)
Record ResourceData : Type := {
  rd_id : string;
  rd_attrs : gmap string value
}.

Definition Get (d : ResourceData) (key : string) : option value :=
  rd_attrs d !! key.
Definition SetId (id : string) (d : ResourceData) : ResourceData :=
  {| rd_id := id; rd_attrs := rd_attrs d |}.
Definition Set_ (key : string) (v : value) (d : ResourceData) : ResourceData :=
  {| rd_id := rd_id d; rd_attrs := <[key := v]> (rd_attrs d) |}.

(** ** Security rules: expand and flatten *)

Definition flattenNetworkSecurityRule (rule : network.SecurityRule)
  : result value :=
  name ←! deref (network.rule_Name rule);
  let sgRule : gmap string value := <["name" := VString name]> ∅ in
  match network.rule_Properties rule with
  | Some props =>
      let sgRule :=
        match network.DestinationAddressPrefix props with
        | Some v => <["destination_address_prefix" := VString v]> sgRule
        | None => sgRule
        end in
      let sgRule :=
        match network.DestinationPortRange props with
        | Some v => <["destination_port_range" := VString v]> sgRule
        | None => sgRule
        end in
      let sgRule :=
        match network.SourceAddressPrefix props with
        | Some v => <["source_address_prefix" := VString v]> sgRule
        | None => sgRule
        end in
      let sgRule :=
        match network.SourcePortRange props with
        | Some v => <["source_port_range" := VString v]> sgRule
        | None => sgRule
        end in
      priority ←! deref (network.Priority props);
      let sgRule := <["priority" := VInt (int_of_int32 priority)]> sgRule in
      let sgRule := <["access" := VString (network.Access props)]> sgRule in
      let sgRule := <["direction" := VString (network.Direction props)]> sgRule in
      let sgRule := <["protocol" := VString (network.Protocol props)]> sgRule in
      let sgRule :=
        match network.Description props with
        | Some v => <["description" := VString v]> sgRule
        | None => sgRule
        end in
      Ok (VMap sgRule)
  | None => Ok (VMap sgRule)
  end.

Fixpoint flattenRulesLoop (rules : list network.SecurityRule)
  (res : list value) : result (list value) :=
  match rules with
  | [] => Ok res
  | rule :: rest =>
      sgRule ←! flattenNetworkSecurityRule rule;
      flattenRulesLoop rest (res ++ [sgRule])
  end.

Definition flattenNetworkSecurityRules
  (rules : option (list network.SecurityRule)) : result (list value) :=
  match rules with
  | Some rs => flattenRulesLoop rs []
  | None => Ok []
  end.

Definition expandSecurityRule (sgRaw : value) : result network.SecurityRule :=
  data ←! assert_map (Some sgRaw);
  name ←! assert_string (data !! "name");
  source_port_range ←! assert_string (data !! "source_port_range");
  destination_port_range ←! assert_string (data !! "destination_port_range");
  source_address_prefix ←! assert_string (data !! "source_address_prefix");
  destination_address_prefix ←!
    assert_string (data !! "destination_address_prefix");
  priority0 ←! assert_int (data !! "priority");
  let priority := int32 priority0 in
  access ←! assert_string (data !! "access");
  direction ←! assert_string (data !! "direction");
  protocol ←! assert_string (data !! "protocol");
  v ←! assert_string (data !! "description");
  let properties :=
    {| network.SourcePortRange := Some source_port_range;
       network.DestinationPortRange := Some destination_port_range;
       network.SourceAddressPrefix := Some source_address_prefix;
       network.DestinationAddressPrefix := Some destination_address_prefix;
       network.Priority := Some priority;
       network.Access := access;
       network.Direction := direction;
       network.Protocol := protocol;
       network.Description := if decide (v = "") then None else Some v |} in
  Ok {| network.rule_Name := Some name;
        network.rule_Properties := Some properties |}.

Fixpoint expandRulesLoop (sgRules : list value)
  (rules : list network.SecurityRule) : result (list network.SecurityRule) :=
  match sgRules with
  | [] => Ok rules
  | sgRaw :: rest =>
      rule ←! expandSecurityRule sgRaw;
      expandRulesLoop rest (rules ++ [rule])
  end.

Definition expandAzureRmSecurityRules (d : ResourceData)
  : result (list network.SecurityRule * option error) :=
  sgRules ←! assert_list (Get d "security_rule");
  rules ←! expandRulesLoop sgRules [];
  Ok (rules, None).

(** ** The SDK clients and the handler state *)

Module automation.
Definition Basic := "Basic".

Record Sku : Type := { sku_Name : string }.

Record AccountProperties : Type := { acc_Sku : option Sku }.

Record AccountCreateOrUpdateProperties : Type := { cu_Sku : option Sku }.

Record AccountCreateOrUpdateParameters : Type := {
  cu_Properties : option AccountCreateOrUpdateProperties;
  cu_Location : option string;
  cu_Tags : Tags
}.

Record Account : Type := {
  Response : autorest.Response;
  ID : option string;
  Name : option string;
  Location : option string;
  Tags_ : Tags;
  Properties : option AccountProperties
}.
End automation.

(** What a handler does to the outside, in the order it does it. Client
    calls are recorded with their arguments and with what they returned;
    [EvRefresh] records a state that [WaitForState] got from its refresh
    function. *)
Inductive event : Type :=
| EvLock (name resourceType : string)
| EvUnlock (name resourceType : string)
| EvSecGroupCreateOrUpdate (resGroup name : string)
    (sg : network.SecurityGroup) (err : option error)
| EvSecGroupGet (resGroup name : string)
    (resp : network.SecurityGroup) (err : option error)
| EvSecGroupDelete (resGroup name : string) (err : option error)
| EvAccountCreateOrUpdate (resGroup name : string)
    (parameters : automation.AccountCreateOrUpdateParameters)
    (err : option error)
| EvAccountGet (resGroup name : string)
    (resp : automation.Account) (err : option error)
| EvAccountDelete (resGroup name : string)
    (resp : autorest.Response) (err : option error)
| EvRefresh (currentState : string).

(** The remote side is a state [W] that every client call may read and
    change. *)
Record SecurityGroupsClient (W : Type) : Type := {
  sg_CreateOrUpdate :
    string → string → network.SecurityGroup → W → option error * W;
  sg_Get : string → string → W → network.SecurityGroup * option error * W;
  sg_Delete : string → string → W → option error * W
}.
Arguments sg_CreateOrUpdate {W}.
Arguments sg_Get {W}.
Arguments sg_Delete {W}.

Record AccountClient (W : Type) : Type := {
  acc_CreateOrUpdate :
    string → string → automation.AccountCreateOrUpdateParameters → W →
    option error * W;
  acc_Get : string → string → W → automation.Account * option error * W;
  acc_Delete : string → string → W → autorest.Response * option error * W
}.
Arguments acc_CreateOrUpdate {W}.
Arguments acc_Get {W}.
Arguments acc_Delete {W}.

Record ArmClient (W : Type) : Type := {
  secGroupClient : SecurityGroupsClient W;
  automationAccountClient : AccountClient W
}.
Arguments secGroupClient {W}.
Arguments automationAccountClient {W}.

Record HState (W : Type) : Type := {
  hs_d : ResourceData;
  hs_w : W;
  hs_log : list event
}.
Arguments hs_d {W}.
Arguments hs_w {W}.
Arguments hs_log {W}.

(** A handler step: runs on the state, yields a value or panics. *)
Definition M (W A : Type) : Type := HState W → result A * HState W.

Definition ret {W A} (a : A) : M W A := λ st, (Ok a, st).

Definition bind {W A B} (m : M W A) (k : A → M W B) : M W B :=
  λ st, match m st with
        | (Ok a, st') => k a st'
        | (Panic, st') => (Panic, st')
        end.

Notation "x ←$ m ; k" := (bind m (λ x, k))
  (at level 20, m at level 100, k at level 200, right associativity,
   format "x  ←$  m ;  '/' k").

Definition lift {W A} (r : result A) : M W A := λ st, (r, st).

Definition emit {W} (ev : event) : M W unit :=
  λ st, (Ok tt, {| hs_d := hs_d st; hs_w := hs_w st;
                   hs_log := hs_log st ++ [ev] |}).

Definition read_d {W} : M W ResourceData := λ st, (Ok (hs_d st), st).

Definition modify_d {W} (f : ResourceData → ResourceData) : M W unit :=
  λ st, (Ok tt, {| hs_d := f (hs_d st); hs_w := hs_w st;
                   hs_log := hs_log st |}).

(** A client call: run it on the remote state, record it. *)
Definition call {W A} (f : W → A * W) (ev : A → event) : M W A :=
  λ st, let '(a, w') := f (hs_w st) in
        (Ok a, {| hs_d := hs_d st; hs_w := w';
                  hs_log := hs_log st ++ [ev a] |}).

(** [azureRMLockByName(name, rt); defer azureRMUnlockByName(name, rt)]
    followed by the rest of the function body: the unlock runs when the body
    is left, by return or by panic. *)
Definition locked {W A} (name resourceType : string) (body : M W A) : M W A :=
  λ st, let '(_, st1) := emit (EvLock name resourceType) st in
        let '(r, st2) := body st1 in
        let '(_, st3) := emit (EvUnlock name resourceType) st2 in
        (r, st3).

(** Starts a handler on resource data [d] and remote state [w]. *)
Definition run {W A} (h : M W A) (d : ResourceData) (w : W)
  : result A * HState W :=
  h {| hs_d := d; hs_w := w; hs_log := [] |}.

(** ** Helpers used by the handlers *)

Module utils.
Definition StatusNotFound : Z := 404.

(** Modelled from the spec: [utils.ResponseWasNotFound] is not among the
    source files. A not-found response is one that carries an HTTP
    response whose status code is 404, the [http.StatusNotFound] that the
    container-registry checks compare [resp.StatusCode] with. *)
Definition ResponseWasNotFound (resp : autorest.Response) : bool :=
  match autorest.StatusCode resp with
  | Some code => bool_decide (code = StatusNotFound)
  | None => false
  end.
End utils.

(** The parsed form of a resource ID, as the handlers read it. *)
Record ResourceID : Type := {
  ResourceGroup : string;
  Path : gmap string string
}.

(** [m[key]] on a [map[string]string]: the empty string when absent. *)
Definition path_lookup (m : gmap string string) (key : string) : string :=
  default "" (m !! key).
Arguments path_lookup : simpl never.

(** [d.Set(key, p)] for a [*string] [p]. *)
Definition string_ptr_value (p : option string) : value :=
  match p with Some s => VString s | None => VNil end.

Module resource.
(** [resource.StateChangeConf] of the hosting framework, as far as the
    handlers fill it in. [Refresh] yields the refreshed object (or nil),
    its state and an error. *)
Record StateChangeConf (W R : Type) : Type := {
  Pending : list string;
  Target : list string;
  Refresh : M W (option R * string * option error);
  Timeout : Z;
  MinTimeout : Z
}.
Arguments Pending {W R}.
Arguments Target {W R}.
Arguments Refresh {W R}.
Arguments Timeout {W R}.
Arguments MinTimeout {W R}.

Definition TimeoutError : error := ExternalError "timeout while waiting for state".
Definition NotFoundError : error := ExternalError "couldn't find resource".
Definition UnexpectedStateError : error := ExternalError "unexpected state".

Definition NotFoundChecks : nat := 20.

(** [WaitForState] is code of the hosting framework. Its polling loop:
    call [Refresh]; an error ends the wait with that error; a state in
    [Target] ends it with success; a state in [Pending] polls again; any
    other state ends it with an error; a nil object with no error is
    tolerated [NotFoundChecks] times in a row. The wall-clock [Timeout] is
    a number [polls] of refreshes that fit into it: when they are used up
    the wait ends with a timeout error. *)
Fixpoint waitLoop {W R} (polls : nat) (conf : StateChangeConf W R)
  (notfoundTick : nat) : M W (option error) :=
  match polls with
  | O => ret (Some TimeoutError)
  | S polls' =>
      r ←$ Refresh conf;
      let '(res, currentState, err) := r in
      match err with
      | Some e => ret (Some e)
      | None =>
          match res with
          | None =>
              if bool_decide (NotFoundChecks < S notfoundTick)%nat
              then ret (Some NotFoundError)
              else waitLoop polls' conf (S notfoundTick)
          | Some _ =>
              _ ←$ emit (EvRefresh currentState);
              if bool_decide (currentState ∈ Target conf) then ret None
              else if bool_decide (currentState ∈ Pending conf)
              then waitLoop polls' conf O
              else ret (Some UnexpectedStateError)
          end
      end
  end.

Definition WaitForState {W R} (polls : nat) (conf : StateChangeConf W R)
  : M W (option error) :=
  waitLoop polls conf O.
End resource.

(** ** The handlers *)

Definition handler (W : Type) : Type := M W (option error).

Definition networkSecurityGroupResourceName := "azurerm_network_security_group".

Section Handlers.
Context {W : Type}.

(** Helpers of the provider that are not among the source files. *)
Variable parseAzureResourceID : string → ResourceID + error.
Variable azureRMNormalizeLocation : string → string.
Variable expandTags : gmap string value → result Tags.
Variable flattenAndSetTags : ResourceData → Tags → ResourceData.

(** How many refreshes fit into the 30 minutes of [Timeout]. *)
Variable polls : nat.

Variable meta : ArmClient W.

Definition get_string (key : string) : M W string :=
  d ←$ read_d; lift (assert_string (Get d key)).
Definition get_map (key : string) : M W (gmap string value) :=
  d ←$ read_d; lift (assert_map (Get d key)).

Definition secGroupGet (resGroup name : string)
  : M W (network.SecurityGroup * option error) :=
  call (sg_Get (secGroupClient meta) resGroup name)
       (λ r, EvSecGroupGet resGroup name r.1 r.2).

Definition networkSecurityGroupStateRefreshFunc
  (resourceGroupName sgName : string)
  : M W (option network.SecurityGroup * string * option error) :=
  r ←$ secGroupGet resourceGroupName sgName;
  let '(res, err) := r in
  match err with
  | Some e =>
      ret (None, "",
           Some (Errorf "Error issuing read request in networkSecurityGroupStateRefreshFunc for NSG '%s' (RG: '%s'): %+v"
                   [ArgString sgName; ArgString resourceGroupName;
                    ArgError e]))
  | None =>
      props ←$ lift (deref (network.Properties res));
      state ←$ lift (deref (network.ProvisioningState props));
      ret (Some res, state, None)
  end.

Definition resourceArmNetworkSecurityGroupRead : handler W :=
  d ←$ read_d;
  match parseAzureResourceID (rd_id d) with
  | inr err => ret (Some err)
  | inl id =>
      let resGroup := ResourceGroup id in
      let name := path_lookup (Path id) "networkSecurityGroups" in
      r ←$ secGroupGet resGroup name;
      let '(resp, err) := r in
      match err with
      | Some e =>
          if utils.ResponseWasNotFound (network.Response resp)
          then _ ←$ modify_d (SetId ""); ret None
          else ret (Some (Errorf "Error making Read request on Azure Network Security Group %q: %+v"
                            [ArgString name; ArgError e]))
      | None =>
          _ ←$ modify_d (Set_ "name" (string_ptr_value (network.Name resp)));
          _ ←$ modify_d (Set_ "resource_group_name" (VString resGroup));
          location ←$ lift (deref (network.Location resp));
          _ ←$ modify_d
                 (Set_ "location" (VString (azureRMNormalizeLocation location)));
          _ ←$ match network.Properties resp with
               | Some props =>
                   rules ←$ lift (flattenNetworkSecurityRules
                                    (network.SecurityRules props));
                   modify_d (Set_ "security_rule" (VList rules))
               | None => ret tt
               end;
          _ ←$ modify_d (λ d, flattenAndSetTags d (network.Tags_ resp));
          ret None
      end
  end.

Definition nsgStateConf (resGroup name : string)
  : resource.StateChangeConf W network.SecurityGroup :=
  {| resource.Pending := ["Updating"; "Creating"];
     resource.Target := ["Succeeded"];
     resource.Refresh := networkSecurityGroupStateRefreshFunc resGroup name;
     resource.Timeout := 30 * 60;
     resource.MinTimeout := 15 |}.

(** The part of [resourceArmNetworkSecurityGroupCreate] that runs with
    the lock held: everything after the [defer]. *)
Definition nsgCreateLocked (name location resGroup : string)
  (tags : gmap string value) (sgRules : list network.SecurityRule)
  : handler W :=
  tags' ←$ lift (expandTags tags);
  let sg :=
    {| network.Response := {| autorest.StatusCode := None |};
       network.ID := None;
       network.Name := Some name;
       network.Location := Some location;
       network.Properties :=
         Some {| network.SecurityRules := Some sgRules;
                 network.ProvisioningState := None |};
       network.Tags_ := tags' |} in
  err ←$ call (sg_CreateOrUpdate (secGroupClient meta) resGroup name sg)
              (EvSecGroupCreateOrUpdate resGroup name sg);
  match err with
  | Some e => ret (Some e)
  | None =>
      r ←$ secGroupGet resGroup name;
      let '(read, err) := r in
      match err with
      | Some e => ret (Some e)
      | None =>
          match network.ID read with
          | None =>
              ret (Some (Errorf "Cannot read Virtual Network %q (resource group %q) ID"
                           [ArgString name; ArgString resGroup]))
          | Some id =>
              werr ←$ resource.WaitForState polls
                        (nsgStateConf resGroup name);
              match werr with
              | Some e =>
                  ret (Some (Errorf "Error waiting for NSG (%q) to become available: %+v"
                               [ArgString name; ArgError e]))
              | None =>
                  _ ←$ modify_d (SetId id);
                  resourceArmNetworkSecurityGroupRead
              end
          end
      end
  end.

Definition resourceArmNetworkSecurityGroupCreate : handler W :=
  name ←$ get_string "name";
  location ←$ get_string "location";
  resGroup ←$ get_string "resource_group_name";
  tags ←$ get_map "tags";
  d ←$ read_d;
  r ←$ lift (expandAzureRmSecurityRules d);
  let '(sgRules, sgErr) := r in
  match sgErr with
  | Some e =>
      ret (Some (Errorf "Error Building list of Network Security Group Rules: %+v"
                   [ArgError e]))
  | None =>
      locked name networkSecurityGroupResourceName
        (nsgCreateLocked name location resGroup tags sgRules)
  end.

Definition resourceArmNetworkSecurityGroupDelete : handler W :=
  d ←$ read_d;
  match parseAzureResourceID (rd_id d) with
  | inr err => ret (Some err)
  | inl id =>
      let resGroup := ResourceGroup id in
      let name := path_lookup (Path id) "networkSecurityGroups" in
      err ←$ call (sg_Delete (secGroupClient meta) resGroup name)
                  (EvSecGroupDelete resGroup name);
      ret err
  end.
End Handlers.

Section AutomationHandlers.
Context {W : Type}.

Variable parseAzureResourceID : string → ResourceID + error.
Variable azureRMNormalizeLocation : string → string.
Variable expandTags : gmap string value → result Tags.
Variable flattenAndSetTags : ResourceData → Tags → ResourceData.

Variable meta : ArmClient W.

Definition expandSku (d : ResourceData) : result automation.Sku :=
  inputs ←! assert_list (Get d "sku");
  input ←! assert_map (inputs !! 0%nat);
  name ←! assert_string (input !! "name");
  let sku := {| automation.sku_Name := name |} in
  Ok sku.

Definition flattenAndSetSku (sku : option automation.Sku)
  : M W unit :=
  s ←$ lift (deref sku);
  let result : gmap string value :=
    <["name" := VString (automation.sku_Name s)]> ∅ in
  let results := [VMap result] in
  modify_d (Set_ "sku" (VList results)).

Definition accountGet (resGroup name : string)
  : M W (automation.Account * option error) :=
  call (acc_Get (automationAccountClient meta) resGroup name)
       (λ r, EvAccountGet resGroup name r.1 r.2).

Definition resourceArmAutomationAccountRead : handler W :=
  d ←$ read_d;
  match parseAzureResourceID (rd_id d) with
  | inr err => ret (Some err)
  | inl id =>
      let resGroup := ResourceGroup id in
      let name := path_lookup (Path id) "automationAccounts" in
      r ←$ accountGet resGroup name;
      let '(resp, err) := r in
      match err with
      | Some e =>
          if utils.ResponseWasNotFound (automation.Response resp)
          then _ ←$ modify_d (SetId ""); ret None
          else ret (Some (Errorf "Error making Read request on AzureRM Automation Account '%s': %+v"
                            [ArgString name; ArgError e]))
      | None =>
          _ ←$ modify_d
                 (Set_ "name" (string_ptr_value (automation.Name resp)));
          location ←$ lift (deref (automation.Location resp));
          _ ←$ modify_d
                 (Set_ "location" (VString (azureRMNormalizeLocation location)));
          _ ←$ modify_d (Set_ "resource_group_name" (VString resGroup));
          props ←$ lift (deref (automation.Properties resp));
          _ ←$ flattenAndSetSku (automation.acc_Sku props);
          _ ←$ modify_d (λ d, flattenAndSetTags d (automation.Tags_ resp));
          ret None
      end
  end.

Definition resourceArmAutomationAccountCreateUpdate : handler W :=
  name ←$ get_string "name";
  location ←$ get_string "location";
  resGroup ←$ get_string "resource_group_name";
  tags ←$ get_map "tags";
  d ←$ read_d;
  sku ←$ lift (expandSku d);
  tags' ←$ lift (expandTags tags);
  let parameters :=
    {| automation.cu_Properties :=
         Some {| automation.cu_Sku := Some sku |};
       automation.cu_Location := Some location;
       automation.cu_Tags := tags' |} in
  err ←$ call (acc_CreateOrUpdate (automationAccountClient meta)
                 resGroup name parameters)
              (EvAccountCreateOrUpdate resGroup name parameters);
  match err with
  | Some e => ret (Some e)
  | None =>
      r ←$ accountGet resGroup name;
      let '(read, err) := r in
      match err with
      | Some e => ret (Some e)
      | None =>
          match automation.ID read with
          | None =>
              ret (Some (Errorf "Cannot read Automation Account '%s' (resource group %s) ID"
                           [ArgString name; ArgString resGroup]))
          | Some id =>
              _ ←$ modify_d (SetId id);
              resourceArmAutomationAccountRead
          end
      end
  end.

Definition resourceArmAutomationAccountDelete : handler W :=
  d ←$ read_d;
  match parseAzureResourceID (rd_id d) with
  | inr err => ret (Some err)
  | inl id =>
      let resGroup := ResourceGroup id in
      let name := path_lookup (Path id) "automationAccounts" in
      r ←$ call (acc_Delete (automationAccountClient meta) resGroup name)
                (λ r, EvAccountDelete resGroup name r.1 r.2);
      let '(resp, err) := r in
      match err with
      | Some e =>
          if utils.ResponseWasNotFound resp then ret None
          else ret (Some (Errorf "Error issuing AzureRM delete request for Automation Account '%s': %+v"
                            [ArgString name; ArgError e]))
      | None => ret None
      end
  end.
End AutomationHandlers.

(** ** Schemas, validation and diff suppression *)

(** [strings.ToLower] on the ASCII letters; every other byte is kept. *)
Definition lower_ascii (c : ascii) : ascii :=
  let n := Ascii.N_of_ascii c in
  if ((65 <=? n) && (n <=? 90))%N then Ascii.ascii_of_N (n + 32) else c.

Fixpoint ToLower (s : string) : string :=
  match s with
  | EmptyString => EmptyString
  | String c rest => String (lower_ascii c) (ToLower rest)
  end.

Module schema.
Inductive ValueType : Type := TypeString | TypeInt | TypeList | TypeMap.

Definition SchemaValidateFunc : Type :=
  value → string → list string * list error.
Definition SchemaDiffSuppressFunc : Type :=
  string → string → string → ResourceData → bool.
Definition SchemaStateFunc : Type := value → string.

#[local] Unset Elimination Schemes.
Inductive Schema : Type := mkSchema {
  Type_ : ValueType;
  Optional : bool;
  Required : bool;
  Computed : bool;
  ForceNew : bool;
  Default : option value;
  MaxItems : Z;
  ValidateFunc : option SchemaValidateFunc;
  DiffSuppressFunc : option SchemaDiffSuppressFunc;
  StateFunc : option SchemaStateFunc;
  Elem : option (gmap string Schema)
}.
#[local] Set Elimination Schemes.

Inductive StateImporter : Type := ImportStatePassthrough.

Record Resource (W : Type) : Type := {
  Create : handler W;
  Read : handler W;
  Update : handler W;
  Delete : handler W;
  Importer : option StateImporter;
  Schema_ : gmap string Schema
}.
Arguments Create {W}.
Arguments Read {W}.
Arguments Update {W}.
Arguments Delete {W}.
Arguments Importer {W}.
Arguments Schema_ {W}.
End schema.

Module validation.
(** [validation.StringInSlice(valid, ignoreCase)] of the hosting
    framework: no error when the value is a string that equals one of
    [valid], or equals it after lower-casing both when [ignoreCase]. *)
Definition StringInSlice (valid : list string) (ignoreCase : bool)
  : schema.SchemaValidateFunc :=
  λ i k,
    match i with
    | VString v =>
        if existsb (λ str, bool_decide (v = str)
                           || (ignoreCase
                               && bool_decide (ToLower v = ToLower str)))
             valid
        then ([], [])
        else ([], [Errorf "expected %s to be one of %v, got %s"
                     (ArgString k :: (ArgString <$> valid) ++ [ArgString v])])
    | _ => ([], [Errorf "expected type of %s to be string" [ArgString k]])
    end.

(** [validation.IntBetween(min, max)] of the hosting framework. *)
Definition IntBetween (min max : Z) : schema.SchemaValidateFunc :=
  λ i k,
    match i with
    | VInt v =>
        if bool_decide (v < min ∨ v > max)
        then ([], [Errorf "expected %s to be in the range (%d - %d), got %d"
                     [ArgString k]])
        else ([], [])
    | _ => ([], [Errorf "expected type of %s to be int" [ArgString k]])
    end.
End validation.

(** Modelled from the spec: [ignoreCaseDiffSuppressFunc] is not among the
    source files. The hosting framework asks it whether the old and the new
    value of an attribute are to be taken as equal; it ignores letter case,
    so values that differ only in letter case produce no diff. *)
Definition ignoreCaseDiffSuppressFunc : schema.SchemaDiffSuppressFunc :=
  λ k old new d, bool_decide (ToLower old = ToLower new).

Section Resources.
Context {W : Type}.

Variable parseAzureResourceID : string → ResourceID + error.
Variable azureRMNormalizeLocation : string → string.
Variable expandTags : gmap string value → result Tags.
Variable flattenAndSetTags : ResourceData → Tags → ResourceData.
Variable polls : nat.

(** Schema helpers of the provider that are not among the source files. *)
Variable locationSchema : schema.Schema.
Variable resourceGroupNameSchema : schema.Schema.
Variable tagsSchema : schema.Schema.
Variable validateStringLength : Z → schema.SchemaValidateFunc.
Variable validateNetworkSecurityRuleProtocol : schema.SchemaValidateFunc.
Variable ignoreCaseStateFunc : schema.SchemaStateFunc.

Variable meta : ArmClient W.

Definition securityRuleSchema : gmap string schema.Schema :=
  list_to_map [
    ("name",
     {| schema.Type_ := schema.TypeString; schema.Required := true;
        schema.Optional := false; schema.Computed := false;
        schema.ForceNew := false; schema.Default := None;
        schema.MaxItems := 0; schema.ValidateFunc := None;
        schema.DiffSuppressFunc := None; schema.StateFunc := None;
        schema.Elem := None |});
    ("description",
     {| schema.Type_ := schema.TypeString; schema.Required := false;
        schema.Optional := true; schema.Computed := false;
        schema.ForceNew := false; schema.Default := None;
        schema.MaxItems := 0;
        schema.ValidateFunc := Some (validateStringLength 140);
        schema.DiffSuppressFunc := None; schema.StateFunc := None;
        schema.Elem := None |});
    ("protocol",
     {| schema.Type_ := schema.TypeString; schema.Required := true;
        schema.Optional := false; schema.Computed := false;
        schema.ForceNew := false; schema.Default := None;
        schema.MaxItems := 0;
        schema.ValidateFunc := Some validateNetworkSecurityRuleProtocol;
        schema.DiffSuppressFunc := None;
        schema.StateFunc := Some ignoreCaseStateFunc;
        schema.Elem := None |});
    ("source_port_range",
     {| schema.Type_ := schema.TypeString; schema.Required := true;
        schema.Optional := false; schema.Computed := false;
        schema.ForceNew := false; schema.Default := None;
        schema.MaxItems := 0; schema.ValidateFunc := None;
        schema.DiffSuppressFunc := None; schema.StateFunc := None;
        schema.Elem := None |});
    ("destination_port_range",
     {| schema.Type_ := schema.TypeString; schema.Required := true;
        schema.Optional := false; schema.Computed := false;
        schema.ForceNew := false; schema.Default := None;
        schema.MaxItems := 0; schema.ValidateFunc := None;
        schema.DiffSuppressFunc := None; schema.StateFunc := None;
        schema.Elem := None |});
    ("source_address_prefix",
     {| schema.Type_ := schema.TypeString; schema.Required := true;
        schema.Optional := false; schema.Computed := false;
        schema.ForceNew := false; schema.Default := None;
        schema.MaxItems := 0; schema.ValidateFunc := None;
        schema.DiffSuppressFunc := None; schema.StateFunc := None;
        schema.Elem := None |});
    ("destination_address_prefix",
     {| schema.Type_ := schema.TypeString; schema.Required := true;
        schema.Optional := false; schema.Computed := false;
        schema.ForceNew := false; schema.Default := None;
        schema.MaxItems := 0; schema.ValidateFunc := None;
        schema.DiffSuppressFunc := None; schema.StateFunc := None;
        schema.Elem := None |});
    ("access",
     {| schema.Type_ := schema.TypeString; schema.Required := true;
        schema.Optional := false; schema.Computed := false;
        schema.ForceNew := false; schema.Default := None;
        schema.MaxItems := 0;
        schema.ValidateFunc :=
          Some (validation.StringInSlice
                  [network.SecurityRuleAccessAllow;
                   network.SecurityRuleAccessDeny] true);
        schema.DiffSuppressFunc := Some ignoreCaseDiffSuppressFunc;
        schema.StateFunc := None; schema.Elem := None |});
    ("priority",
     {| schema.Type_ := schema.TypeInt; schema.Required := true;
        schema.Optional := false; schema.Computed := false;
        schema.ForceNew := false; schema.Default := None;
        schema.MaxItems := 0;
        schema.ValidateFunc := Some (validation.IntBetween 100 4096);
        schema.DiffSuppressFunc := None; schema.StateFunc := None;
        schema.Elem := None |});
    ("direction",
     {| schema.Type_ := schema.TypeString; schema.Required := true;
        schema.Optional := false; schema.Computed := false;
        schema.ForceNew := false; schema.Default := None;
        schema.MaxItems := 0;
        schema.ValidateFunc :=
          Some (validation.StringInSlice
                  [network.SecurityRuleDirectionInbound;
                   network.SecurityRuleDirectionOutbound] true);
        schema.DiffSuppressFunc := Some ignoreCaseDiffSuppressFunc;
        schema.StateFunc := None; schema.Elem := None |})
  ].

Definition resourceArmNetworkSecurityGroup : schema.Resource W :=
  {| schema.Create :=
       resourceArmNetworkSecurityGroupCreate parseAzureResourceID
         azureRMNormalizeLocation expandTags flattenAndSetTags polls meta;
     schema.Read :=
       resourceArmNetworkSecurityGroupRead parseAzureResourceID
         azureRMNormalizeLocation flattenAndSetTags meta;
     schema.Update :=
       resourceArmNetworkSecurityGroupCreate parseAzureResourceID
         azureRMNormalizeLocation expandTags flattenAndSetTags polls meta;
     schema.Delete :=
       resourceArmNetworkSecurityGroupDelete parseAzureResourceID meta;
     schema.Importer := Some schema.ImportStatePassthrough;
     schema.Schema_ :=
       list_to_map [
         ("name",
          {| schema.Type_ := schema.TypeString; schema.Required := true;
             schema.Optional := false; schema.Computed := false;
             schema.ForceNew := true; schema.Default := None;
             schema.MaxItems := 0; schema.ValidateFunc := None;
             schema.DiffSuppressFunc := None; schema.StateFunc := None;
             schema.Elem := None |});
         ("location", locationSchema);
         ("resource_group_name", resourceGroupNameSchema);
         ("security_rule",
          {| schema.Type_ := schema.TypeList; schema.Required := false;
             schema.Optional := true; schema.Computed := true;
             schema.ForceNew := false; schema.Default := None;
             schema.MaxItems := 0; schema.ValidateFunc := None;
             schema.DiffSuppressFunc := None; schema.StateFunc := None;
             schema.Elem := Some securityRuleSchema |});
         ("tags", tagsSchema)
       ] |}.

Definition skuSchema : gmap string schema.Schema :=
  list_to_map [
    ("name",
     {| schema.Type_ := schema.TypeString; schema.Required := false;
        schema.Optional := true; schema.Computed := false;
        schema.ForceNew := false;
        schema.Default := Some (VString automation.Basic);
        schema.MaxItems := 0;
        schema.ValidateFunc :=
          Some (validation.StringInSlice [automation.Basic] true);
        schema.DiffSuppressFunc := Some ignoreCaseDiffSuppressFunc;
        schema.StateFunc := None; schema.Elem := None |})
  ].

Definition resourceArmAutomationAccount : schema.Resource W :=
  {| schema.Create :=
       resourceArmAutomationAccountCreateUpdate parseAzureResourceID
         azureRMNormalizeLocation expandTags flattenAndSetTags meta;
     schema.Read :=
       resourceArmAutomationAccountRead parseAzureResourceID
         azureRMNormalizeLocation flattenAndSetTags meta;
     schema.Update :=
       resourceArmAutomationAccountCreateUpdate parseAzureResourceID
         azureRMNormalizeLocation expandTags flattenAndSetTags meta;
     schema.Delete :=
       resourceArmAutomationAccountDelete parseAzureResourceID meta;
     schema.Importer := Some schema.ImportStatePassthrough;
     schema.Schema_ :=
       list_to_map [
         ("name",
          {| schema.Type_ := schema.TypeString; schema.Required := true;
             schema.Optional := false; schema.Computed := false;
             schema.ForceNew := true; schema.Default := None;
             schema.MaxItems := 0; schema.ValidateFunc := None;
             schema.DiffSuppressFunc := None; schema.StateFunc := None;
             schema.Elem := None |});
         ("location", locationSchema);
         ("resource_group_name", resourceGroupNameSchema);
         ("sku",
          {| schema.Type_ := schema.TypeList; schema.Required := true;
             schema.Optional := false; schema.Computed := false;
             schema.ForceNew := false; schema.Default := None;
             schema.MaxItems := 1; schema.ValidateFunc := None;
             schema.DiffSuppressFunc := None; schema.StateFunc := None;
             schema.Elem := Some skuSchema |});
         ("tags", tagsSchema)
       ] |}.
End Resources.

(** ** Container registry name validation *)






(** ** Well-formed security rule configurations *)

Definition securityRuleStringFields : list string :=
  ["name"; "source_port_range"; "destination_port_range";
   "source_address_prefix"; "destination_address_prefix";
   "access"; "direction"; "protocol"].

Definition securityRuleFields : list string :=
  "priority" :: "description" :: securityRuleStringFields.

(** Every schema field of a security rule is present with the type the
    schema gives it, the description is not empty, and nothing else is in
    the map. *)
Record complete_rule (m : gmap string value) : Prop := {
  cr_strings :
    ∀ k, k ∈ securityRuleStringFields → ∃ s, m !! k = Some (VString s);
  cr_priority : ∃ z, m !! "priority" = Some (VInt z);
  cr_description : ∃ s, m !! "description" = Some (VString s) ∧ s ≠ "";
  cr_only : ∀ k, is_Some (m !! k) → k ∈ securityRuleFields
}.

(** The priority is a number that an [int32] holds. *)
Definition priority_fits_int32 (m : gmap string value) : Prop :=
  ∀ z, m !! "priority" = Some (VInt z) → - 2 ^ 31 ≤ z < 2 ^ 31.

(** A rule configuration with the given field values. *)
Definition mkRule (name description protocol source_port_range
  destination_port_range source_address_prefix destination_address_prefix
  access direction : string) (priority : Z) : gmap string value :=
  list_to_map [
    ("name", VString name);
    ("description", VString description);
    ("protocol", VString protocol);
    ("source_port_range", VString source_port_range);
    ("destination_port_range", VString destination_port_range);
    ("source_address_prefix", VString source_address_prefix);
    ("destination_address_prefix", VString destination_address_prefix);
    ("access", VString access);
    ("priority", VInt priority);
    ("direction", VString direction) ].

Definition sampleRule (priority : Z) : gmap string value :=
  mkRule "allow-ssh" "ssh from anywhere" "Tcp" "*" "22" "*" "*"
         "Allow" "Inbound" priority.

Definition sampleData (rules : list (gmap string value)) : ResourceData :=
  {| rd_id := "";
     rd_attrs :=
       list_to_map [
         ("name", VString "nsg1");
         ("location", VString "westeurope");
         ("resource_group_name", VString "rg1");
         ("tags", VMap ∅);
         ("security_rule", VList (VMap <$> rules));
         ("sku", VList [VMap (<["name" := VString "Basic"]> ∅)]) ] |}.

(** ** Predicates on names and schemas *)


(** An attribute compares case-insensitively: old and new values that are
    equal up to letter case produce no diff, and every spelling of an
    allowed value passes validation. *)
Definition case_insensitive (s : schema.Schema) (allowed : list string)
  : Prop :=
  (∃ f, schema.DiffSuppressFunc s = Some f
        ∧ ∀ k old new d, ToLower old = ToLower new → f k old new d = true)
  ∧ (∃ g, schema.ValidateFunc s = Some g
          ∧ ∀ v k a, a ∈ allowed → ToLower v = ToLower a →
                     g (VString v) k = ([], [])).

(** ** A scripted remote side, for running the handlers on examples *)

Module Script.
(** The remote state counts the Get calls answered so far; the n-th Get is
    answered by the n-th entry of the script. *)
Definition World : Type := nat.

Definition sgAnswer (status : option Z) (id state : option string)
  (err : option error) : network.SecurityGroup * option error :=
  ({| network.Response := {| autorest.StatusCode := status |};
      network.ID := id;
      network.Name := Some "nsg1";
      network.Location := Some "West Europe";
      network.Tags_ := None;
      network.Properties :=
        Some {| network.SecurityRules := Some [];
                network.ProvisioningState := state |} |}, err).

Definition accAnswer (status : option Z) (id : option string)
  (err : option error) : automation.Account * option error :=
  ({| automation.Response := {| autorest.StatusCode := status |};
      automation.ID := id;
      automation.Name := Some "acc1";
      automation.Location := Some "West Europe";
      automation.Tags_ := None;
      automation.Properties :=
        Some {| automation.acc_Sku :=
                  Some {| automation.sku_Name := "Basic" |} |} |}, err).

Definition serverError : error := ExternalError "500 Internal Server Error".
Definition notFoundError : error := ExternalError "404 Not Found".

Definition secGroups (createErr : option error)
  (gets : list (network.SecurityGroup * option error))
  (deleteErr : option error) : SecurityGroupsClient World :=
  {| sg_CreateOrUpdate := λ _ _ _ n, (createErr, n);
     sg_Get := λ _ _ n,
       (nth n gets (sgAnswer None None None (Some serverError)), S n);
     sg_Delete := λ _ _ n, (deleteErr, n) |}.

Definition accounts (createErr : option error)
  (gets : list (automation.Account * option error))
  (deleteAnswer : autorest.Response * option error)
  : AccountClient World :=
  {| acc_CreateOrUpdate := λ _ _ _ n, (createErr, n);
     acc_Get := λ _ _ n,
       (nth n gets (accAnswer None None (Some serverError)), S n);
     acc_Delete := λ _ _ n, (deleteAnswer, n) |}.

Definition meta (sg : SecurityGroupsClient World)
  (acc : AccountClient World) : ArmClient World :=
  {| secGroupClient := sg; automationAccountClient := acc |}.

Definition noSecGroups : SecurityGroupsClient World :=
  secGroups None [] None.
Definition noAccounts : AccountClient World :=
  accounts None [] ({| autorest.StatusCode := None |}, None).

(** Stand-ins for the helpers that are not among the source files. *)
Definition parseAzureResourceID (id : string) : ResourceID + error :=
  if decide (id = "") then inr (ExternalError "Cannot parse Azure Id")
  else inl {| ResourceGroup := "rg1";
              Path := list_to_map [("networkSecurityGroups", "nsg1");
                                   ("automationAccounts", "acc1")] |}.
Definition azureRMNormalizeLocation (location : string) : string :=
  ToLower location.
Definition expandTags (tags : gmap string value) : result Tags := Ok None.
Definition flattenAndSetTags (d : ResourceData) (tags : Tags)
  : ResourceData := d.

Definition nsgId : string :=
  "/subscriptions/s/resourceGroups/rg1/providers/Microsoft.Network/networkSecurityGroups/nsg1".
Definition accId : string :=
  "/subscriptions/s/resourceGroups/rg1/providers/Microsoft.Automation/automationAccounts/acc1".

Definition stored (id : string) : ResourceData :=
  SetId id (sampleData []).

(** A remote side on which creating the group goes well: the read-back and
    the first refresh find it "Updating", the second refresh finds it
    "Succeeded", and the concluding read finds it too. *)
Definition sgOk (state : string) : network.SecurityGroup * option error :=
  sgAnswer (Some 200) (Some nsgId) (Some state) None.
Definition creating : ArmClient World :=
  meta (secGroups None
          [sgOk "Updating"; sgOk "Updating"; sgOk "Succeeded";
           sgOk "Succeeded"] None)
       noAccounts.

(** A remote side on which the group never leaves "Updating". *)
Definition stuck : ArmClient World :=
  meta (secGroups None
          [sgOk "Updating"; sgOk "Updating"; sgOk "Updating";
           sgOk "Updating"; sgOk "Updating"] None)
       noAccounts.

(** The create handler of the network security group on the stand-in
    helpers, with room for three refreshes. *)
Definition nsgCreate (m : ArmClient World) : handler World :=
  resourceArmNetworkSecurityGroupCreate parseAzureResourceID
    azureRMNormalizeLocation expandTags flattenAndSetTags 3 m.
Definition nsgDelete (m : ArmClient World) : handler World :=
  resourceArmNetworkSecurityGroupDelete parseAzureResourceID m.
Definition accountCreate (m : ArmClient World) : handler World :=
  resourceArmAutomationAccountCreateUpdate parseAzureResourceID
    azureRMNormalizeLocation expandTags flattenAndSetTags m.

(** The configuration of an automation account "acc1". *)
Definition accountConfig : ResourceData :=
  Set_ "name" (VString "acc1") (sampleData []).
Definition accountParameters : automation.AccountCreateOrUpdateParameters :=
  {| automation.cu_Properties :=
       Some {| automation.cu_Sku :=
                 Some {| automation.sku_Name := "Basic" |} |};
     automation.cu_Location := Some "westeurope";
     automation.cu_Tags := None |}.
Definition accOk : automation.Account * option error :=
  accAnswer (Some 200) (Some accId) None.

(** A remote side that answers every Get on the account, and one that
    answers the read-back of the create handler and fails after that. *)
Definition accountThere : ArmClient World :=
  meta noSecGroups
    (accounts None [accOk; accOk] ({| autorest.StatusCode := None |}, None)).
Definition accountFlaky : ArmClient World :=
  meta noSecGroups
    (accounts None [accOk] ({| autorest.StatusCode := None |}, None)).
End Script.

(** ** Predicates on handler steps and logs *)

(** A handler step appends events to the log, all of them in [P], and
    never rewrites what is already there. *)
Definition emits {W A} (P : event → Prop) (m : M W A) : Prop :=
  ∀ st r st', m st = (r, st') →
    ∃ evs, hs_log st' = hs_log st ++ evs ∧ Forall P evs.


Definition is_lock_event (ev : event) : bool :=
  match ev with
  | EvLock _ _ | EvUnlock _ _ => true
  | _ => false
  end.

Definition is_refresh_event (ev : event) : bool :=
  match ev with
  | EvRefresh _ => true
  | _ => false
  end.

Definition is_account_get (ev : event) : bool :=
  match ev with
  | EvAccountGet _ _ _ _ => true
  | _ => false
  end.

Definition is_account_create_or_update (ev : event) : bool :=
  match ev with
  | EvAccountCreateOrUpdate _ _ _ _ => true
  | _ => false
  end.

(** How many events of a log are of a given kind. *)
Fixpoint count_events (p : event → bool) (log : list event) : nat :=
  match log with
  | [] => 0
  | ev :: rest => (if p ev then 1 else 0) + count_events p rest
  end%nat.

(** The states that [WaitForState] saw, in order. *)
Definition refreshStates (log : list event) : list string :=
  omap (λ ev, match ev with EvRefresh s => Some s | _ => None end) log.

(** ** Two handlers at once *)

(** Modelled from the spec: [azureRMLockByName] and [azureRMUnlockByName]
    are not among the source files. They are the per-resource named lock:
    a lock on a name and resource type is granted only while nobody holds
    it, and the unlock gives it back. [lock_step held ev] is the set of held
    locks after [ev], or [None] when [ev] has to wait. *)
Definition lock_step (held : gset (string * string)) (ev : event)
  : option (gset (string * string)) :=
  match ev with
  | EvLock name rt =>
      if decide ((name, rt) ∈ held) then None
      else Some ({[(name, rt)]} ∪ held)
  | EvUnlock name rt => Some (held ∖ {[(name, rt)]})
  | _ => Some held
  end.

(** The ways two handlers, one doing [t1] and one doing [t2], can take
    turns: the schedule lists who did what. *)
Inductive interleaving
  : gset (string * string) → list event → list event →
    list (bool * event) → Prop :=
| il_done held : interleaving held [] [] []
| il_left held held' ev t1 t2 s :
    lock_step held ev = Some held' →
    interleaving held' t1 t2 s →
    interleaving held (ev :: t1) t2 ((false, ev) :: s)
| il_right held held' ev t1 t2 s :
    lock_step held ev = Some held' →
    interleaving held' t1 t2 s →
    interleaving held t1 (ev :: t2) ((true, ev) :: s).

(** The part of a schedule that one of the two handlers contributes. *)
Definition tagged (who : bool) (t : list event) : list (bool * event) :=
  (λ ev, (who, ev)) <$> t.

(** ** Predicates on SDK security rules *)

(** The pointers that [flattenNetworkSecurityRules] dereferences without a
    nil check: the name, and the priority when there are properties. *)
Definition rule_flattens (rule : network.SecurityRule) : Prop :=
  is_Some (network.rule_Name rule)
  ∧ ∀ props, network.rule_Properties rule = Some props →
             is_Some (network.Priority props).

(** A rule as the API returns it for a rule that was written with a
    description: every pointer is set, the description is not empty, the
    priority is an [int32]. *)
Definition populated_rule (rule : network.SecurityRule) : Prop :=
  is_Some (network.rule_Name rule)
  ∧ ∃ props,
      network.rule_Properties rule = Some props
      ∧ is_Some (network.SourcePortRange props)
      ∧ is_Some (network.DestinationPortRange props)
      ∧ is_Some (network.SourceAddressPrefix props)
      ∧ is_Some (network.DestinationAddressPrefix props)
      ∧ (∃ z, network.Priority props = Some z ∧ - 2 ^ 31 ≤ z < 2 ^ 31)
      ∧ (∃ s, network.Description props = Some s ∧ s ≠ "").

(** What [expandAzureRmSecurityRules] asserts about one rule map: the
    string fields are strings and the priority is an int. *)
Definition rule_typed (m : gmap string value) : Prop :=
  (∀ k, k ∈ securityRuleStringFields → ∃ s, m !! k = Some (VString s))
  ∧ (∃ z, m !! "priority" = Some (VInt z))
  ∧ (∃ s, m !! "description" = Some (VString s)).

(** An SDK rule for the examples. *)
Definition sampleSdkRule (description : option string)
  : network.SecurityRule :=
  {| network.rule_Name := Some "allow-ssh";
     network.rule_Properties :=
       Some {| network.Description := description;
               network.Protocol := "Tcp";
               network.SourcePortRange := Some "*";
               network.DestinationPortRange := Some "22";
               network.SourceAddressPrefix := Some "*";
               network.DestinationAddressPrefix := Some "*";
               network.Access := "Allow";
               network.Priority := Some 100;
               network.Direction := "Inbound" |} |}.

(** The priority of the rule map passes the check that the schema of the
    network security group puts on "priority". *)
Definition priority_validated (priority : schema.Schema)
  (m : gmap string value) : Prop :=
  ∃ validate v,
    schema.ValidateFunc priority = Some validate
    ∧ m !! "priority" = Some v
    ∧ (validate v "priority").2 = [].

(** A rule configuration that leaves the description empty. *)
Definition emptyDescriptionRule : gmap string value :=
  mkRule "allow-ssh" "" "Tcp" "*" "22" "*" "*" "Allow" "Inbound" 100.

(** ** Counting client calls *)

(** The events that are calls of an SDK client. *)
Definition is_client_call (ev : event) : bool :=
  match ev with
  | EvLock _ _ | EvUnlock _ _ | EvRefresh _ => false
  | _ => true
  end.

(** The events that creating a network security group may leave in the
    log: the lock, CreateOrUpdate and Get on the security groups client,
    and the states seen while waiting. *)
Definition nsg_create_event (ev : event) : bool :=
  match ev with
  | EvLock _ _ | EvUnlock _ _ | EvRefresh _
  | EvSecGroupCreateOrUpdate _ _ _ _ | EvSecGroupGet _ _ _ _ => true
  | _ => false
  end.

Definition is_secgroup_create_or_update (ev : event) : bool :=
  match ev with
  | EvSecGroupCreateOrUpdate _ _ _ _ => true
  | _ => false
  end.

(** A handler step appends at most [n] events of kind [p] to the log. *)
Definition spends {W A} (p : event → bool) (n : nat) (m : M W A) : Prop :=
  ∀ st r st', m st = (r, st') →
    ∃ evs, hs_log st' = hs_log st ++ evs ∧ (count_events p evs ≤ n)%nat.

(** ** The checks of the container registry acceptance tests *)

Module terraform.
(** [terraform.InstanceState] and [terraform.ResourceState], as far as the
    checks read them. [Primary] is a pointer. *)
Record InstanceState : Type := { Attributes : gmap string string }.

Record ResourceState : Type := {
  Type_ : string;
  Primary : option InstanceState
}.
End terraform.

(** The errors that the checks build with [fmt.Errorf], one constructor for
    each call: "Not found: %s", "Bad: no resource group found in state for
    Container Registry: %s", "Bad: Get on containerRegistryClient: %+v",
    "Bad: Container Registry %q (resource group: %q) does not exist" and
    "Container Registry still exists:\n%#v". *)
Inductive checkError : Type :=
| NotFoundInState (name : string)
| NoResourceGroupInState (name : string)
| BadGet (err : error)
| DoesNotExist (name resourceGroup : string)
| StillExists (resp : autorest.Response).

(** [Get] of the container registry client: the response, of which the
    checks read the status code only, and the error. *)
Definition RegistryGet (W : Type) : Type :=
  string → string → W → autorest.Response * option error * W.

(** What a check leaves behind: its result, the remote state, and the
    resource groups and names it asked the client for, in order. *)
Definition checked (W : Type) : Type :=
  result (option checkError) * W * list (string * string).

Definition testCheckAzureRMContainerRegistryExists {W}
  (conn : RegistryGet W) (name : string)
  (resources : gmap string terraform.ResourceState) (w : W) : checked W :=
  match resources !! name with
  | None => (Ok (Some (NotFoundInState name)), w, [])
  | Some rs =>
      match terraform.Primary rs with
      | None => (Panic, w, [])
      | Some primary =>
          let name := path_lookup (terraform.Attributes primary) "name" in
          match terraform.Attributes primary !! "resource_group_name" with
          | None => (Ok (Some (NoResourceGroupInState name)), w, [])
          | Some resourceGroup =>
              let '(resp, err, w') := conn resourceGroup name w in
              let calls := [(resourceGroup, name)] in
              match err with
              | Some e => (Ok (Some (BadGet e)), w', calls)
              | None =>
                  match autorest.StatusCode resp with
                  | None => (Panic, w', calls)
                  | Some code =>
                      if decide (code = utils.StatusNotFound)
                      then (Ok (Some (DoesNotExist name resourceGroup)),
                            w', calls)
                      else (Ok None, w', calls)
                  end
              end
          end
      end
  end.

(** The loop of [testCheckAzureRMContainerRegistryDestroy] over the
    resources of the root module, in the order in which the [range] over
    the map yields them. *)
Fixpoint testCheckAzureRMContainerRegistryDestroy {W}
  (conn : RegistryGet W) (resources : list terraform.ResourceState)
  (w : W) (calls : list (string * string)) : checked W :=
  match resources with
  | [] => (Ok None, w, calls)
  | rs :: rest =>
      if decide (terraform.Type_ rs ≠ "azurerm_container_registry")
      then testCheckAzureRMContainerRegistryDestroy conn rest w calls
      else
        match terraform.Primary rs with
        | None => (Panic, w, calls)
        | Some primary =>
            let name := path_lookup (terraform.Attributes primary) "name" in
            let resourceGroup :=
              path_lookup (terraform.Attributes primary)
                "resource_group_name" in
            let '(resp, err, w') := conn resourceGroup name w in
            let calls := calls ++ [(resourceGroup, name)] in
            match err with
            | Some _ => (Ok None, w', calls)
            | None =>
                match autorest.StatusCode resp with
                | None => (Panic, w', calls)
                | Some code =>
                    if decide (code ≠ utils.StatusNotFound)
                    then (Ok (Some (StillExists resp)), w', calls)
                    else testCheckAzureRMContainerRegistryDestroy
                           conn rest w' calls
                end
            end
        end
  end.

(** The resource group and name under which the check asks for a resource
    of the state, when it is a container registry with a primary
    instance. *)
Definition registryKey (rs : terraform.ResourceState)
  : option (string * string) :=
  if decide (terraform.Type_ rs ≠ "azurerm_container_registry") then None
  else
    primary ← terraform.Primary rs;
    Some (path_lookup (terraform.Attributes primary) "resource_group_name",
          path_lookup (terraform.Attributes primary) "name").

(** Resources of a state, for the examples. *)
Definition registryState (name : string) : terraform.ResourceState :=
  {| terraform.Type_ := "azurerm_container_registry";
     terraform.Primary :=
       Some {| terraform.Attributes :=
                 list_to_map [("name", name);
                              ("resource_group_name", "rg1")] |} |}.
Definition groupState : terraform.ResourceState :=
  {| terraform.Type_ := "azurerm_resource_group";
     terraform.Primary :=
       Some {| terraform.Attributes := list_to_map [("name", "rg1")] |} |}.

(** A registry client that answers with a status, and one that fails. *)
Definition registryAnswers (code : Z) : RegistryGet nat :=
  λ _ _ n, ({| autorest.StatusCode := Some code |}, None, S n).
Definition registryFails : RegistryGet nat :=
  λ _ _ n, ({| autorest.StatusCode := None |},
            Some (ExternalError "connection reset"), S n).

(** * Properties *)

(** ** Basic facts about the result type and the loops *)

Lemma assert_string_Ok v s : assert_string v = Ok s → v = Some (VString s).
Proof. destruct v as [[]|]; simpl; congruence. Qed.

Lemma int32_small z : - 2 ^ 31 ≤ z < 2 ^ 31 → int32 z = z.
Proof.
  intros Hz. unfold int32. rewrite Z.mod_small by lia. lia.
Qed.

Lemma expandRulesLoop_acc sgRules acc :
  expandRulesLoop sgRules acc =
  (rs ←! expandRulesLoop sgRules []; Ok (acc ++ rs)).
Proof.
  revert acc. induction sgRules as [|sgRaw rest IH]; intros acc; simpl.
  - by rewrite app_nil_r.
  - destruct (expandSecurityRule sgRaw) as [rule|]; simpl; [|done].
    rewrite (IH (acc ++ [rule])), (IH [rule]).
    destruct (expandRulesLoop rest []) as [rs|]; simpl; [|done].
    by rewrite <- app_assoc.
Qed.

Lemma flattenRulesLoop_acc rules acc :
  flattenRulesLoop rules acc =
  (vs ←! flattenRulesLoop rules []; Ok (acc ++ vs)).
Proof.
  revert acc. induction rules as [|rule rest IH]; intros acc; simpl.
  - by rewrite app_nil_r.
  - destruct (flattenNetworkSecurityRule rule) as [v|]; simpl; [|done].
    rewrite (IH (acc ++ [v])), (IH [v]).
    destruct (flattenRulesLoop rest []) as [vs|]; simpl; [|done].
    by rewrite <- app_assoc.
Qed.

(** ** Security rules: expand, then flatten *)

Lemma flatten_expand_rule (m : gmap string value) :
  complete_rule m → priority_fits_int32 m →
  ∃ rule, expandSecurityRule (VMap m) = Ok rule
          ∧ flattenNetworkSecurityRule rule = Ok (VMap m).
Proof.
  intros [Hstr [z Hprio] (desc & Hdesc & Hne) Honly] Hfit.
  pose proof (Hfit z Hprio) as Hz.
  assert (∀ k, k ∈ securityRuleStringFields → ∃ s, m !! k = Some (VString s))
    as Hs by done.
  destruct (Hs "name") as [name Hname]; [by repeat constructor|].
  destruct (Hs "source_port_range") as [spr Hspr]; [by repeat constructor|].
  destruct (Hs "destination_port_range") as [dpr Hdpr]; [by repeat constructor|].
  destruct (Hs "source_address_prefix") as [sap Hsap]; [by repeat constructor|].
  destruct (Hs "destination_address_prefix") as [dap Hdap]; [by repeat constructor|].
  destruct (Hs "access") as [acc Hacc]; [by repeat constructor|].
  destruct (Hs "direction") as [dir Hdir]; [by repeat constructor|].
  destruct (Hs "protocol") as [proto Hproto]; [by repeat constructor|].
  unfold expandSecurityRule. simpl.
  rewrite Hname, Hspr, Hdpr, Hsap, Hdap, Hprio, Hacc, Hdir, Hproto, Hdesc.
  simpl. eexists. split; [reflexivity|].
  unfold flattenNetworkSecurityRule. simpl.
  destruct (decide (desc = "")) as [|_]; [done|]. simpl.
  rewrite (int32_small z Hz). unfold int_of_int32.
  do 2 f_equal. apply map_eq. intros i.
  destruct (decide (i = "description")) as [->|?];
    [by rewrite lookup_insert_eq|rewrite lookup_insert_ne by done].
  destruct (decide (i = "protocol")) as [->|?];
    [by rewrite lookup_insert_eq|rewrite lookup_insert_ne by done].
  destruct (decide (i = "direction")) as [->|?];
    [by rewrite lookup_insert_eq|rewrite lookup_insert_ne by done].
  destruct (decide (i = "access")) as [->|?];
    [by rewrite lookup_insert_eq|rewrite lookup_insert_ne by done].
  destruct (decide (i = "priority")) as [->|?];
    [by rewrite lookup_insert_eq|rewrite lookup_insert_ne by done].
  destruct (decide (i = "source_port_range")) as [->|?];
    [by rewrite lookup_insert_eq|rewrite lookup_insert_ne by done].
  destruct (decide (i = "source_address_prefix")) as [->|?];
    [by rewrite lookup_insert_eq|rewrite lookup_insert_ne by done].
  destruct (decide (i = "destination_port_range")) as [->|?];
    [by rewrite lookup_insert_eq|rewrite lookup_insert_ne by done].
  destruct (decide (i = "destination_address_prefix")) as [->|?];
    [by rewrite lookup_insert_eq|rewrite lookup_insert_ne by done].
  destruct (decide (i = "name")) as [->|?];
    [by rewrite lookup_insert_eq|rewrite lookup_insert_ne by done].
  rewrite lookup_empty. symmetry. apply eq_None_not_Some. intros Hsome.
  apply Honly in Hsome.
  unfold securityRuleFields, securityRuleStringFields in Hsome.
  repeat (apply elem_of_cons in Hsome as [->|Hsome]; [done|]).
  by apply elem_of_nil in Hsome.
Qed.

Lemma flatten_expand_rules (rules : list (gmap string value)) :
  Forall complete_rule rules → Forall priority_fits_int32 rules →
  ∃ sdkRules, expandRulesLoop (VMap <$> rules) [] = Ok sdkRules
              ∧ flattenRulesLoop sdkRules [] = Ok (VMap <$> rules).
Proof.
  induction rules as [|m rest IH]; intros Hc Hp.
  - exists []. done.
  - inversion Hc as [|?? Hm Hrest]; subst.
    inversion Hp as [|?? Hpm Hprest]; subst.
    destruct (flatten_expand_rule m Hm Hpm) as (rule & He & Hf).
    destruct (IH Hrest Hprest) as (sdk & Hes & Hfs).
    exists (rule :: sdk). rewrite fmap_cons. split.
    + cbn [expandRulesLoop]. rewrite He. cbn [rbind].
      rewrite expandRulesLoop_acc, Hes. done.
    + cbn [flattenRulesLoop]. rewrite Hf. cbn [rbind].
      rewrite flattenRulesLoop_acc, Hfs. done.
Qed.

(** C1, as amended: for every list of security-rule configurations in which
    each schema field is present, the description is a non-empty string and
    the priority is a number that fits a signed 32-bit integer,
    [flattenNetworkSecurityRules] applied to the result of
    [expandAzureRmSecurityRules] returns the same list of rule attribute
    maps, in the same order, with every field value preserved. *)
Theorem security_rules_round_trip (d : ResourceData)
  (rules : list (gmap string value)) :
  Get d "security_rule" = Some (VList (VMap <$> rules)) →
  Forall complete_rule rules →
  Forall priority_fits_int32 rules →
  ∃ sdkRules,
    expandAzureRmSecurityRules d = Ok (sdkRules, None)
    ∧ flattenNetworkSecurityRules (Some sdkRules) = Ok (VMap <$> rules).
Proof.
  intros Hget Hc Hp.
  destruct (flatten_expand_rules rules Hc Hp) as (sdk & He & Hf).
  exists sdk. unfold expandAzureRmSecurityRules. rewrite Hget. simpl.
  rewrite He. simpl. done.
Qed.

Lemma mkRule_complete name description protocol spr dpr sap dap access
  direction priority :
  description ≠ "" →
  complete_rule (mkRule name description protocol spr dpr sap dap access
                   direction priority).
Proof.
  intros Hne. split.
  - intros k Hk. unfold securityRuleStringFields in Hk.
    repeat (apply elem_of_cons in Hk as [->|Hk];
            [eexists; reflexivity|]).
    by apply elem_of_nil in Hk.
  - eexists. reflexivity.
  - eexists. split; [reflexivity|done].
  - intros k Hk. unfold mkRule in Hk. cbn [list_to_map foldr] in Hk.
    unfold securityRuleFields, securityRuleStringFields.
    repeat (rewrite lookup_insert in Hk;
            destruct (decide (_ = k)) as [<-|?];
            [by repeat constructor|]).
    rewrite lookup_empty in Hk. by destruct Hk.
Qed.

Lemma sampleRule_fits priority :
  - 2 ^ 31 ≤ priority < 2 ^ 31 → priority_fits_int32 (sampleRule priority).
Proof.
  intros Hp z Hz. vm_compute in Hz. injection Hz as <-. exact Hp.
Qed.

Lemma security_rules_round_trip_witness :
  let rules := [sampleRule 100; sampleRule 4096] in
  ∃ sdkRules,
    expandAzureRmSecurityRules (sampleData rules) = Ok (sdkRules, None)
    ∧ flattenNetworkSecurityRules (Some sdkRules) = Ok (VMap <$> rules).
Proof.
  intros rules.
  apply (security_rules_round_trip (sampleData rules) rules).
  - reflexivity.
  - do 2 (constructor; [by apply mkRule_complete|]). constructor.
  - do 2 (constructor; [apply sampleRule_fits; lia|]). constructor.
Defined.

(** C1, as stated, fails: a rule whose priority is [2^32 + 100] has every
    schema field present and a non-empty description, yet it comes back
    with priority [100]. *)
Lemma security_rules_round_trip_wide_priority :
  let rules := [sampleRule (2 ^ 32 + 100)] in
  Forall complete_rule rules
  ∧ ∃ sdkRules,
      expandAzureRmSecurityRules (sampleData rules) = Ok (sdkRules, None)
      ∧ flattenNetworkSecurityRules (Some sdkRules)
        = Ok [VMap (sampleRule 100)]
      ∧ [VMap (sampleRule 100)] ≠ VMap <$> rules.
Proof.
  intros rules. split.
  - constructor; [by apply mkRule_complete|constructor].
  - eexists. split; [vm_compute; reflexivity|]. split.
    + vm_compute. reflexivity.
    + intros Heq.
      apply (f_equal (λ l : list value,
                        match l with
                        | [VMap m] => m !! "priority"
                        | _ => None
                        end)) in Heq.
      vm_compute in Heq. discriminate Heq.
Qed.

(** ** What handler steps emit and keep *)

Section Emits.
Context {W : Type}.
Implicit Types P : event → Prop.

Lemma emits_ret {A} P (a : A) : emits P (@ret W A a).
Proof. intros st r st' [= <- <-]. exists []. by rewrite app_nil_r. Qed.

Lemma emits_lift {A} P (r : result A) : emits P (@lift W A r).
Proof. intros st r' st' [= <- <-]. exists []. by rewrite app_nil_r. Qed.

Lemma emits_read_d P : emits P (@read_d W).
Proof. intros st r st' [= <- <-]. exists []. by rewrite app_nil_r. Qed.

Lemma emits_modify_d P f : emits P (@modify_d W f).
Proof. intros st r st' [= <- <-]. exists []. by rewrite app_nil_r. Qed.

Lemma emits_emit P ev : P ev → emits P (@emit W ev).
Proof. intros HP st r st' [= <- <-]. exists [ev]. by repeat constructor. Qed.

Lemma emits_call {A} P (f : W → A * W) ev :
  (∀ a, P (ev a)) → emits P (call f ev).
Proof.
  intros HP st r st'. unfold call. destruct (f (hs_w st)) as [a w'].
  intros [= <- <-]. exists [ev a]. by repeat constructor.
Qed.

Lemma emits_bind {A B} P (m : M W A) (k : A → M W B) :
  emits P m → (∀ a, emits P (k a)) → emits P (bind m k).
Proof.
  intros Hm Hk st r st'. unfold bind.
  destruct (m st) as [[a|] st1] eqn:Hst1.
  - intros Hst'. destruct (Hm _ _ _ Hst1) as (evs1 & H1 & HP1).
    destruct (Hk a _ _ _ Hst') as (evs2 & H2 & HP2).
    exists (evs1 ++ evs2). split; [by rewrite H2, H1, app_assoc|].
    by apply Forall_app.
  - intros [= <- <-]. by apply (Hm _ _ _ Hst1).
Qed.

Lemma emits_weaken {A} P Q (m : M W A) :
  (∀ ev, P ev → Q ev) → emits P m → emits Q m.
Proof.
  intros HPQ Hm st r st' Hst. destruct (Hm _ _ _ Hst) as (evs & H1 & HP).
  exists evs. split; [done|]. eapply Forall_impl; eauto.
Qed.






End Emits.

(** ** Stepping through a handler *)

Section Stepping.
Context {W : Type}.

Lemma bind_read_d {B} (k : ResourceData → M W B) st :
  bind read_d k st = k (hs_d st) st.
Proof. done. Qed.

Lemma bind_lift_Ok {A B} (r : result A) a (k : A → M W B) st :
  r = Ok a → bind (lift r) k st = k a st.
Proof. by intros ->. Qed.

Lemma bind_lift_Panic' {A B} (k : A → M W B) st :
  bind (lift Panic) k st = (Panic, st).
Proof. done. Qed.

Lemma bind_get_string {B} key s (k : string → M W B) st :
  Get (hs_d st) key = Some (VString s) → bind (get_string key) k st = k s st.
Proof. intros H. unfold get_string, bind, read_d, lift. by rewrite H. Qed.

Lemma bind_get_map {B} key m (k : gmap string value → M W B) st :
  Get (hs_d st) key = Some (VMap m) → bind (get_map key) k st = k m st.
Proof. intros H. unfold get_map, bind, read_d, lift. by rewrite H. Qed.

Lemma bind_call {A B} (f : W → A * W) ev a w' (k : A → M W B) st :
  f (hs_w st) = (a, w') →
  bind (call f ev) k st
  = k a {| hs_d := hs_d st; hs_w := w'; hs_log := hs_log st ++ [ev a] |}.
Proof. intros H. unfold bind, call. by rewrite H. Qed.

Lemma bind_modify_d {B} f (k : unit → M W B) st :
  bind (modify_d f) k st
  = k tt {| hs_d := f (hs_d st); hs_w := hs_w st; hs_log := hs_log st |}.
Proof. done. Qed.
End Stepping.

(** Replaces the statement of [H] by its normal form, computed by the
    virtual machine. *)
Ltac vm_cast_in H :=
  let T := type of H in
  let T' := eval vm_compute in T in
  let H' := fresh in
  pose proof (H <: T') as H'; clear H; rename H' into H.

Ltac emits_step :=
  match goal with
  | |- emits _ (bind _ _) => apply emits_bind; [|intros ?]
  | |- emits _ (ret _) => apply emits_ret
  | |- emits _ (lift _) => apply emits_lift
  | |- emits _ read_d => apply emits_read_d
  | |- emits _ (modify_d _) => apply emits_modify_d
  | |- emits _ (emit _) => apply emits_emit; done
  | |- emits _ (call _ _) => apply emits_call; done
  | |- emits _ (match ?x with _ => _ end) => destruct x
  end.

Ltac solve_emits := repeat emits_step.



Section HandlersEmit.
Context {W : Type}.
Variable parseAzureResourceID : string → ResourceID + error.
Variable azureRMNormalizeLocation : string → string.
Variable expandTags : gmap string value → result Tags.
Variable flattenAndSetTags : ResourceData → Tags → ResourceData.
Variable polls : nat.
Variable meta : ArmClient W.

Lemma emits_refresh rg name :
  emits (λ ev, is_lock_event ev = false ∧ is_refresh_event ev = false)
    (networkSecurityGroupStateRefreshFunc meta rg name).
Proof.
  unfold networkSecurityGroupStateRefreshFunc, secGroupGet. solve_emits.
Qed.


Lemma emits_waitLoop {R} n (conf : resource.StateChangeConf W R) tick :
  emits (λ ev, is_lock_event ev = false) (resource.Refresh conf) →
  emits (λ ev, is_lock_event ev = false) (resource.waitLoop n conf tick).
Proof.
  intros Href. revert tick. induction n as [|n IH]; intros tick; simpl.
  - solve_emits.
  - apply emits_bind; [done|]. intros [[res st] err].
    destruct err; [solve_emits|].
    destruct res; [|case_bool_decide; [solve_emits|apply IH]].
    apply emits_bind; [solve_emits|]. intros _.
    repeat case_bool_decide; solve [solve_emits | apply IH].
Qed.

Lemma emits_nsg_wait rg name :
  emits (λ ev, is_lock_event ev = false)
    (resource.WaitForState polls (nsgStateConf meta rg name)).
Proof.
  apply emits_waitLoop. eapply emits_weaken; [|apply emits_refresh].
  by intros ev [? _].
Qed.

Lemma emits_nsg_read :
  emits (λ ev, is_lock_event ev = false ∧ is_refresh_event ev = false)
    (resourceArmNetworkSecurityGroupRead parseAzureResourceID
       azureRMNormalizeLocation flattenAndSetTags meta).
Proof.
  unfold resourceArmNetworkSecurityGroupRead, secGroupGet. solve_emits.
Qed.

Lemma emits_nsg_create_locked name location resGroup tags sgRules :
  emits (λ ev, is_lock_event ev = false)
    (nsgCreateLocked parseAzureResourceID azureRMNormalizeLocation
       expandTags flattenAndSetTags polls meta
       name location resGroup tags sgRules).
Proof.
  unfold nsgCreateLocked, secGroupGet. solve_emits.
  - apply emits_nsg_wait.
  - eapply emits_weaken; [|apply emits_nsg_read]. by intros ev [? _].
Qed.

Lemma emits_nsg_delete :
  emits (λ ev, is_lock_event ev = false)
    (resourceArmNetworkSecurityGroupDelete parseAzureResourceID meta).
Proof. unfold resourceArmNetworkSecurityGroupDelete. solve_emits. Qed.

Lemma emits_account_read :
  emits (λ ev, is_account_get ev = true)
    (resourceArmAutomationAccountRead parseAzureResourceID
       azureRMNormalizeLocation flattenAndSetTags meta).
Proof.
  unfold resourceArmAutomationAccountRead, accountGet, flattenAndSetSku.
  solve_emits.
Qed.
End HandlersEmit.

(** ** The expand function has no error result *)

(** C8: [expandAzureRmSecurityRules] returns a nil error for every input
    rule list: whenever it returns, the error is nil. So the branch of
    [resourceArmNetworkSecurityGroupCreate] that reports "Error Building
    list of Network Security Group Rules" is never taken: that branch
    returns before the lock is acquired, and every run of the handler that
    returns has acquired the lock first. *)
Theorem expand_error_is_nil {W : Type}
  (parseAzureResourceID : string → ResourceID + error)
  (azureRMNormalizeLocation : string → string)
  (expandTags : gmap string value → result Tags)
  (flattenAndSetTags : ResourceData → Tags → ResourceData)
  (polls : nat) (meta : ArmClient W) (d : ResourceData) (w : W) :
  match expandAzureRmSecurityRules d with
  | Ok (_, Some _) => False
  | Ok (_, None) | Panic => True
  end
  ∧ match run (resourceArmNetworkSecurityGroupCreate parseAzureResourceID
                 azureRMNormalizeLocation expandTags flattenAndSetTags
                 polls meta) d w with
    | (Ok _, st) =>
        ∃ name rest,
          hs_log st = EvLock name networkSecurityGroupResourceName :: rest
    | (Panic, _) => True
    end.
Proof.
  assert (match expandAzureRmSecurityRules d with
          | Ok (_, Some _) => False
          | Ok (_, None) | Panic => True
          end) as Hexp.
  { unfold expandAzureRmSecurityRules.
    destruct (assert_list (Get d "security_rule")) as [l|]; simpl; [|done].
    by destruct (expandRulesLoop l []). }
  split; [exact Hexp|].
  unfold run, resourceArmNetworkSecurityGroupCreate, bind, get_string,
    get_map, read_d, lift. simpl.
  destruct (assert_string (Get d "name")) as [name|]; [|done].
  destruct (assert_string (Get d "location")) as [location|]; [|done].
  destruct (assert_string (Get d "resource_group_name")) as [resGroup|];
    [|done].
  destruct (assert_map (Get d "tags")) as [tags|]; [|done].
  destruct (expandAzureRmSecurityRules d) as [[sgRules [e|]]|];
    [done| |done].
  unfold locked, emit. simpl.
  match goal with
  | |- context [nsgCreateLocked ?a ?b ?c ?d ?e ?f ?g ?h ?i ?j ?k ?st] =>
      destruct (nsgCreateLocked a b c d e f g h i j k st) as [r st2] eqn:Hbody
  end.
  destruct r as [r|]; [|done]. simpl.
  destruct (emits_nsg_create_locked _ _ _ _ _ _ _ _ _ _ _ _ _ _ Hbody)
    as (evs & Hevs & _).
  rewrite Hevs. simpl. eauto.
Qed.

(** ** Container registry name validation *)




(** ** Update is Create *)

(** C10: for both the network security group and the automation account
    resources, the registered Update handler is the very same function as
    the registered Create handler, so for every configuration and remote
    state an update has the same result, writes the same state and makes
    the same calls, in the same order, as a create. *)
Theorem update_is_create {W : Type}
  (parseAzureResourceID : string → ResourceID + error)
  (azureRMNormalizeLocation : string → string)
  (expandTags : gmap string value → result Tags)
  (flattenAndSetTags : ResourceData → Tags → ResourceData)
  (polls : nat)
  (locationSchema resourceGroupNameSchema tagsSchema : schema.Schema)
  (validateStringLength : Z → schema.SchemaValidateFunc)
  (validateNetworkSecurityRuleProtocol : schema.SchemaValidateFunc)
  (ignoreCaseStateFunc : schema.SchemaStateFunc)
  (meta : ArmClient W) :
  let nsg :=
    resourceArmNetworkSecurityGroup parseAzureResourceID
      azureRMNormalizeLocation expandTags flattenAndSetTags polls
      locationSchema resourceGroupNameSchema tagsSchema validateStringLength
      validateNetworkSecurityRuleProtocol ignoreCaseStateFunc meta in
  let account :=
    resourceArmAutomationAccount parseAzureResourceID
      azureRMNormalizeLocation expandTags flattenAndSetTags
      locationSchema resourceGroupNameSchema tagsSchema meta in
  schema.Update nsg = schema.Create nsg
  ∧ schema.Update nsg
    = resourceArmNetworkSecurityGroupCreate parseAzureResourceID
        azureRMNormalizeLocation expandTags flattenAndSetTags polls meta
  ∧ schema.Update account = schema.Create account
  ∧ schema.Update account
    = resourceArmAutomationAccountCreateUpdate parseAzureResourceID
        azureRMNormalizeLocation expandTags flattenAndSetTags meta
  ∧ ∀ d w,
      run (schema.Update nsg) d w = run (schema.Create nsg) d w
      ∧ run (schema.Update account) d w = run (schema.Create account) d w.
Proof. cbv zeta. repeat split. Qed.

(** ** Case-insensitive attributes *)

Lemma StringInSlice_ignore_case valid v k a :
  a ∈ valid → ToLower v = ToLower a →
  validation.StringInSlice valid true (VString v) k = ([], []).
Proof.
  intros Ha Hlow. unfold validation.StringInSlice.
  assert (existsb (λ str, bool_decide (v = str)
                          || (true && bool_decide (ToLower v = ToLower str)))
            valid = true) as ->; [|done].
  apply existsb_exists. exists a. split; [by apply list_elem_of_In|].
  simpl. rewrite (bool_decide_eq_true_2 _ Hlow). apply orb_true_r.
Qed.

Lemma ignoreCaseDiffSuppressFunc_ignores_case k old new d :
  ToLower old = ToLower new → ignoreCaseDiffSuppressFunc k old new d = true.
Proof. intros H. unfold ignoreCaseDiffSuppressFunc. by case_bool_decide. Qed.

(** C7: the access and direction attributes of a security rule and the sku
    name of an automation account compare case-insensitively: two values
    differing only in letter case produce no diff
    ([ignoreCaseDiffSuppressFunc]), and validation accepts the allowed
    values (Allow/Deny, Inbound/Outbound, Basic) in any case. *)
Theorem access_direction_sku_ignore_case
  (validateStringLength : Z → schema.SchemaValidateFunc)
  (validateNetworkSecurityRuleProtocol : schema.SchemaValidateFunc)
  (ignoreCaseStateFunc : schema.SchemaStateFunc) :
  let rule := securityRuleSchema validateStringLength
                validateNetworkSecurityRuleProtocol ignoreCaseStateFunc in
  (∃ s, rule !! "access" = Some s
        ∧ schema.DiffSuppressFunc s = Some ignoreCaseDiffSuppressFunc
        ∧ case_insensitive s ["Allow"; "Deny"])
  ∧ (∃ s, rule !! "direction" = Some s
          ∧ schema.DiffSuppressFunc s = Some ignoreCaseDiffSuppressFunc
          ∧ case_insensitive s ["Inbound"; "Outbound"])
  ∧ (∃ s, skuSchema !! "name" = Some s
          ∧ schema.DiffSuppressFunc s = Some ignoreCaseDiffSuppressFunc
          ∧ case_insensitive s ["Basic"]).
Proof.
  cbv zeta. repeat split;
    (eexists; split; [reflexivity|]; split; [reflexivity|]; split;
     eexists; (split; [reflexivity|]); intros;
     eauto using StringInSlice_ignore_case,
       ignoreCaseDiffSuppressFunc_ignores_case).
Qed.

Lemma access_direction_sku_ignore_case_witness :
  ignoreCaseDiffSuppressFunc "access" "allow" "Allow" (sampleData []) = true
  ∧ validation.StringInSlice ["Allow"; "Deny"] true (VString "DENY") "access"
    = ([], [])
  ∧ validation.StringInSlice ["Basic"] true (VString "basic") "name"
    = ([], []).
Proof.
  pose proof (access_direction_sku_ignore_case
                (λ _ _ _, ([], [])) (λ _ _, ([], [])) (λ _, ""))
    as (Haccess & _ & Hsku).
  destruct Haccess as (s & Hs & Hdiff & [_ (g & Hg & Hvalid)]).
  destruct Hsku as (s' & Hs' & _ & [_ (g' & Hg' & Hvalid')]).
  injection Hs as <-. injection Hs' as <-.
  injection Hg as <-. injection Hg' as <-.
  split; [reflexivity|]. split.
  - apply (Hvalid "DENY" "access" "Deny"); [by repeat constructor|reflexivity].
  - apply (Hvalid' "basic" "name" "Basic"); [by repeat constructor|reflexivity].
Defined.

(** ** Read and a resource that is gone *)

(** C3: for both the network security group and the automation account
    resources, if the client Get call fails and the response is a not-found
    response, the Read handler sets the resource ID to the empty string and
    returns nil; for every other Get error it returns a non-nil error and
    leaves the resource ID (and the rest of the resource data) unchanged. *)
Theorem read_not_found {W : Type}
  (parseAzureResourceID : string → ResourceID + error)
  (azureRMNormalizeLocation : string → string)
  (flattenAndSetTags : ResourceData → Tags → ResourceData)
  (meta : ArmClient W) (d : ResourceData) (w : W) (id : ResourceID) :
  parseAzureResourceID (rd_id d) = inl id →
  (∀ resp e w',
     sg_Get (secGroupClient meta) (ResourceGroup id)
       (path_lookup (Path id) "networkSecurityGroups") w
     = (resp, Some e, w') →
     let '(r, st) :=
       run (resourceArmNetworkSecurityGroupRead parseAzureResourceID
              azureRMNormalizeLocation flattenAndSetTags meta) d w in
     if utils.ResponseWasNotFound (network.Response resp)
     then r = Ok None ∧ rd_id (hs_d st) = ""
     else (∃ e', r = Ok (Some e')) ∧ hs_d st = d)
  ∧ (∀ resp e w',
       acc_Get (automationAccountClient meta) (ResourceGroup id)
         (path_lookup (Path id) "automationAccounts") w
       = (resp, Some e, w') →
       let '(r, st) :=
         run (resourceArmAutomationAccountRead parseAzureResourceID
                azureRMNormalizeLocation flattenAndSetTags meta) d w in
       if utils.ResponseWasNotFound (automation.Response resp)
       then r = Ok None ∧ rd_id (hs_d st) = ""
       else (∃ e', r = Ok (Some e')) ∧ hs_d st = d).
Proof.
  intros Hparse. split; intros resp e w' Hget.
  - unfold run, resourceArmNetworkSecurityGroupRead, secGroupGet, bind,
      read_d, call. cbn [hs_d hs_w hs_log]. rewrite Hparse.
    cbn [hs_d hs_w hs_log]. rewrite Hget. simpl.
    destruct (utils.ResponseWasNotFound _); simpl; eauto.
  - unfold run, resourceArmAutomationAccountRead, accountGet, bind,
      read_d, call. cbn [hs_d hs_w hs_log]. rewrite Hparse.
    cbn [hs_d hs_w hs_log]. rewrite Hget. simpl.
    destruct (utils.ResponseWasNotFound _); simpl; eauto.
Qed.

Lemma read_not_found_witness :
  let gone := Script.sgAnswer (Some 404) None None (Some Script.notFoundError) in
  let broken := Script.accAnswer (Some 500) None (Some Script.serverError) in
  let meta := Script.meta (Script.secGroups None [gone] None)
                (Script.accounts None [broken]
                   ({| autorest.StatusCode := None |}, None)) in
  (let '(r, st) :=
     run (resourceArmNetworkSecurityGroupRead Script.parseAzureResourceID
            Script.azureRMNormalizeLocation Script.flattenAndSetTags meta)
       (Script.stored Script.nsgId) 0%nat in
   r = Ok None ∧ rd_id (hs_d st) = "")
  ∧ (let '(r, st) :=
       run (resourceArmAutomationAccountRead Script.parseAzureResourceID
              Script.azureRMNormalizeLocation Script.flattenAndSetTags meta)
         (Script.stored Script.nsgId) 0%nat in
     (∃ e', r = Ok (Some e')) ∧ hs_d st = Script.stored Script.nsgId).
Proof.
  intros gone broken meta.
  destruct (read_not_found Script.parseAzureResourceID
              Script.azureRMNormalizeLocation Script.flattenAndSetTags
              meta (Script.stored Script.nsgId) 0%nat
              {| ResourceGroup := "rg1";
                 Path := list_to_map [("networkSecurityGroups", "nsg1");
                                      ("automationAccounts", "acc1")] |}
              eq_refl) as [Hnsg Hacc].
  split.
  - exact (Hnsg gone.1 Script.notFoundError 1%nat eq_refl).
  - exact (Hacc broken.1 Script.serverError 1%nat eq_refl).
Defined.


(** ** Delete and a resource that is gone *)

(** C9: deleting an already-absent automation account succeeds:
    [resourceArmAutomationAccountDelete] returns nil when the client Delete
    call errors with a not-found response, and a non-nil error for every
    other Delete error; the network security group delete handler returns
    whatever the client call returned, error or not, unchanged: it has no
    not-found special case. *)
Theorem delete_not_found {W : Type}
  (parseAzureResourceID : string → ResourceID + error)
  (meta : ArmClient W) (d : ResourceData) (w : W) (id : ResourceID) :
  parseAzureResourceID (rd_id d) = inl id →
  (∀ resp e w',
     acc_Delete (automationAccountClient meta) (ResourceGroup id)
       (path_lookup (Path id) "automationAccounts") w
     = (resp, Some e, w') →
     (run (resourceArmAutomationAccountDelete parseAzureResourceID meta)
        d w).1
     = if utils.ResponseWasNotFound resp then Ok None
       else Ok (Some (Errorf "Error issuing AzureRM delete request for Automation Account '%s': %+v"
                        [ArgString (path_lookup (Path id) "automationAccounts");
                         ArgError e])))
  ∧ (∀ err w',
       sg_Delete (secGroupClient meta) (ResourceGroup id)
         (path_lookup (Path id) "networkSecurityGroups") w
       = (err, w') →
       (run (resourceArmNetworkSecurityGroupDelete parseAzureResourceID meta)
          d w).1
       = Ok err).
Proof.
  intros Hparse. split.
  - intros resp e w' Hdel.
    unfold run, resourceArmAutomationAccountDelete, bind, read_d, call.
    cbn [hs_d hs_w hs_log]. rewrite Hparse. cbn [hs_d hs_w hs_log].
    rewrite Hdel. simpl. by destruct (utils.ResponseWasNotFound resp).
  - intros err w' Hdel.
    unfold run, resourceArmNetworkSecurityGroupDelete, bind, read_d, call.
    cbn [hs_d hs_w hs_log]. rewrite Hparse. cbn [hs_d hs_w hs_log].
    rewrite Hdel. done.
Qed.

Lemma delete_not_found_witness :
  let gone : autorest.Response := {| autorest.StatusCode := Some 404 |} in
  let meta :=
    Script.meta (Script.secGroups None [] (Some Script.notFoundError))
      (Script.accounts None [] (gone, Some Script.notFoundError)) in
  (run (resourceArmAutomationAccountDelete Script.parseAzureResourceID meta)
     (Script.stored Script.accId) 0%nat).1 = Ok None
  ∧ (run (resourceArmNetworkSecurityGroupDelete Script.parseAzureResourceID
            meta) (Script.stored Script.nsgId) 0%nat).1
    = Ok (Some Script.notFoundError).
Proof.
  intros gone meta. split.
  - exact (proj1 (delete_not_found Script.parseAzureResourceID meta
                    (Script.stored Script.accId) 0%nat _ eq_refl)
             gone Script.notFoundError 0%nat eq_refl).
  - exact (proj2 (delete_not_found Script.parseAzureResourceID meta
                    (Script.stored Script.nsgId) 0%nat _ eq_refl)
             (Some Script.notFoundError) 0%nat eq_refl).
Defined.


(** ** The named lock *)

Lemma interleaving_right_only held t2 s :
  interleaving held [] t2 s → s = tagged true t2.
Proof.
  intros H. remember [] as t1 eqn:Ht1.
  induction H as [|???????? IH|???????? IH]; subst; try done.
  simpl. f_equal. by apply IH.
Qed.

Lemma interleaving_left_only held t1 s :
  interleaving held t1 [] s → s = tagged false t1.
Proof.
  intros H. remember [] as t2 eqn:Ht2.
  induction H as [|???????? IH|???????? IH]; subst; try done.
  simpl. f_equal. by apply IH.
Qed.

Lemma lock_step_other held ev :
  is_lock_event ev = false → lock_step held ev = Some held.
Proof. by destruct ev. Qed.

(** While one handler holds the lock, the other one, waiting for it, does
    not move. *)
Lemma critical_section_left name rt held body t2 s :
  (name, rt) ∈ held →
  Forall (λ ev, is_lock_event ev = false) body →
  interleaving held (body ++ [EvUnlock name rt]) (EvLock name rt :: t2) s →
  ∃ s', s = tagged false (body ++ [EvUnlock name rt]) ++ s'
        ∧ interleaving (held ∖ {[(name, rt)]}) [] (EvLock name rt :: t2) s'.
Proof.
  intros Hheld Hbody. revert s.
  induction Hbody as [|ev body Hev Hbody IH]; intros s Hs; simpl in *.
  - inversion Hs as [|? held' ? ? ? s' Hstep Hrest
                      |? held' ? ? ? s' Hstep Hrest]; subst.
    + simpl in Hstep. injection Hstep as <-. eauto.
    + simpl in Hstep. by rewrite decide_True in Hstep.
  - inversion Hs as [|? held' ? ? ? s' Hstep Hrest
                      |? held' ? ? ? s' Hstep Hrest]; subst.
    + rewrite lock_step_other in Hstep by done. injection Hstep as <-.
      destruct (IH _ Hrest) as (s'' & -> & Hrest'). eauto.
    + simpl in Hstep. by rewrite decide_True in Hstep.
Qed.

Lemma critical_section_right name rt held body t1 s :
  (name, rt) ∈ held →
  Forall (λ ev, is_lock_event ev = false) body →
  interleaving held (EvLock name rt :: t1) (body ++ [EvUnlock name rt]) s →
  ∃ s', s = tagged true (body ++ [EvUnlock name rt]) ++ s'
        ∧ interleaving (held ∖ {[(name, rt)]}) (EvLock name rt :: t1) [] s'.
Proof.
  intros Hheld Hbody. revert s.
  induction Hbody as [|ev body Hev Hbody IH]; intros s Hs; simpl in *.
  - inversion Hs as [|? held' ? ? ? s' Hstep Hrest
                      |? held' ? ? ? s' Hstep Hrest]; subst.
    + simpl in Hstep. by rewrite decide_True in Hstep.
    + simpl in Hstep. injection Hstep as <-. eauto.
  - inversion Hs as [|? held' ? ? ? s' Hstep Hrest
                      |? held' ? ? ? s' Hstep Hrest]; subst.
    + simpl in Hstep. by rewrite decide_True in Hstep.
    + rewrite lock_step_other in Hstep by done. injection Hstep as <-.
      destruct (IH _ Hrest) as (s'' & -> & Hrest'). eauto.
Qed.

(** Two traces that each take the same lock around their body can only run
    one after the other. *)
Lemma locked_traces_serialized name rt body1 body2 s :
  Forall (λ ev, is_lock_event ev = false) body1 →
  Forall (λ ev, is_lock_event ev = false) body2 →
  let t1 := EvLock name rt :: body1 ++ [EvUnlock name rt] in
  let t2 := EvLock name rt :: body2 ++ [EvUnlock name rt] in
  interleaving ∅ t1 t2 s →
  s = tagged false t1 ++ tagged true t2 ∨ s = tagged true t2 ++ tagged false t1.
Proof.
  intros Hb1 Hb2 t1 t2 Hs.
  inversion Hs as [|? held' ? ? ? s' Hstep Hrest
                    |? held' ? ? ? s' Hstep Hrest]; subst.
  - simpl in Hstep. rewrite decide_False in Hstep by set_solver.
    injection Hstep as <-.
    apply critical_section_left in Hrest as (s'' & -> & Hrest);
      [|set_solver|done].
    apply interleaving_right_only in Hrest as ->. by left.
  - simpl in Hstep. rewrite decide_False in Hstep by set_solver.
    injection Hstep as <-.
    apply critical_section_right in Hrest as (s'' & -> & Hrest);
      [|set_solver|done].
    apply interleaving_left_only in Hrest as ->. by right.
Qed.

Section NamedLock.
Context {W : Type}.
Variable parseAzureResourceID : string → ResourceID + error.
Variable azureRMNormalizeLocation : string → string.
Variable expandTags : gmap string value → result Tags.
Variable flattenAndSetTags : ResourceData → Tags → ResourceData.
Variable polls : nat.

(** The trace of the create handler: nothing at all, or the lock on the
    configured name, then events that are not lock events, then the unlock
    of the same name. *)
Lemma nsg_create_trace (meta : ArmClient W) d w :
  let st := (run (resourceArmNetworkSecurityGroupCreate parseAzureResourceID
                    azureRMNormalizeLocation expandTags flattenAndSetTags
                    polls meta) d w).2 in
  hs_log st = []
  ∨ ∃ name body,
      Get d "name" = Some (VString name)
      ∧ hs_log st
        = EvLock name networkSecurityGroupResourceName
            :: body ++ [EvUnlock name networkSecurityGroupResourceName]
      ∧ Forall (λ ev, is_lock_event ev = false) body.
Proof.
  unfold run, resourceArmNetworkSecurityGroupCreate, bind, get_string,
    get_map, read_d, lift. simpl.
  destruct (assert_string (Get d "name")) as [name|] eqn:Hname; auto.
  apply assert_string_Ok in Hname.
  destruct (assert_string (Get d "location")) as [location|]; auto.
  destruct (assert_string (Get d "resource_group_name")) as [resGroup|];
    auto.
  destruct (assert_map (Get d "tags")) as [tags|]; auto.
  destruct (expandAzureRmSecurityRules d) as [[sgRules [e|]]|]; auto.
  right. exists name. unfold locked, emit. simpl.
  match goal with
  | |- context [nsgCreateLocked ?a ?b ?c ?d ?e ?f ?g ?h ?i ?j ?k ?st] =>
      destruct (nsgCreateLocked a b c d e f g h i j k st) as [r st2] eqn:Hbody
  end.
  destruct (emits_nsg_create_locked _ _ _ _ _ _ _ _ _ _ _ _ _ _ Hbody)
    as (body & Hlog & Hnolock).
  simpl in *. exists body. rewrite Hlog. done.
Qed.
End NamedLock.

Example nsg_create_sample_run :
  let '(r, st) := run (Script.nsgCreate Script.creating) (sampleData []) 0%nat in
  r = Ok None
  ∧ rd_id (hs_d st) = Script.nsgId
  ∧ refreshStates (hs_log st) = ["Updating"; "Succeeded"]
  ∧ length (hs_log st) = 9%nat.
Proof. vm_compute. done. Qed.

(** C5, as amended: the create/update handler of a network security group
    acquires the named lock keyed by the group's name and the resource type
    "azurerm_network_security_group" before issuing any API call and
    releases it when it returns, so that two concurrent create/update
    operations on the same named group never execute their API calls
    concurrently: they run one after the other. The delete handler acquires
    no lock. *)
Theorem nsg_create_takes_named_lock {W : Type}
  (parseAzureResourceID : string → ResourceID + error)
  (azureRMNormalizeLocation : string → string)
  (expandTags : gmap string value → result Tags)
  (flattenAndSetTags : ResourceData → Tags → ResourceData)
  (polls : nat) (meta1 meta2 : ArmClient W)
  (d1 d2 : ResourceData) (w1 w2 : W) :
  let create meta :=
    resourceArmNetworkSecurityGroupCreate parseAzureResourceID
      azureRMNormalizeLocation expandTags flattenAndSetTags polls meta in
  let t1 := hs_log (run (create meta1) d1 w1).2 in
  let t2 := hs_log (run (create meta2) d2 w2).2 in
  (t1 = []
   ∨ ∃ name body,
       Get d1 "name" = Some (VString name)
       ∧ t1 = EvLock name "azurerm_network_security_group"
                :: body ++ [EvUnlock name "azurerm_network_security_group"]
       ∧ Forall (λ ev, is_lock_event ev = false) body)
  ∧ (∀ s, Get d1 "name" = Get d2 "name" →
          interleaving ∅ t1 t2 s →
          s = tagged false t1 ++ tagged true t2
          ∨ s = tagged true t2 ++ tagged false t1)
  ∧ Forall (λ ev, is_lock_event ev = false)
      (hs_log (run (resourceArmNetworkSecurityGroupDelete
                      parseAzureResourceID meta1) d1 w1).2).
Proof.
  intros create t1 t2.
  pose proof (nsg_create_trace parseAzureResourceID azureRMNormalizeLocation
                expandTags flattenAndSetTags polls meta1 d1 w1) as H1.
  pose proof (nsg_create_trace parseAzureResourceID azureRMNormalizeLocation
                expandTags flattenAndSetTags polls meta2 d2 w2) as H2.
  cbv zeta in H1, H2. fold (create meta1) in H1. fold (create meta2) in H2.
  fold t1 in H1. fold t2 in H2.
  split; [exact H1|]. split.
  - intros s Hname Hs.
    destruct H1 as [H1|(name1 & body1 & Hn1 & H1 & Hb1)].
    { rewrite H1 in *. apply interleaving_right_only in Hs. by left. }
    destruct H2 as [H2|(name2 & body2 & Hn2 & H2 & Hb2)].
    { rewrite H2 in *. apply interleaving_left_only in Hs.
      left. by rewrite app_nil_r. }
    rewrite Hn1, Hn2 in Hname. injection Hname as ->.
    rewrite H1, H2 in *. by apply locked_traces_serialized.
  - clear. unfold run.
    destruct (resourceArmNetworkSecurityGroupDelete _ _ _) as [r st] eqn:Hrun.
    destruct (emits_nsg_delete _ _ _ _ _ Hrun) as (evs & Hlog & Hevs).
    simpl in *. by rewrite Hlog.
Qed.

Ltac build_interleaving :=
  repeat first [ apply il_done
               | eapply il_left; [reflexivity|]
               | eapply il_right; [reflexivity|] ].

Lemma nsg_create_takes_named_lock_witness :
  let t := hs_log (run (Script.nsgCreate Script.creating)
                     (sampleData []) 0%nat).2 in
  tagged false t ++ tagged true t = tagged false t ++ tagged true t
  ∨ tagged false t ++ tagged true t = tagged true t ++ tagged false t.
Proof.
  intros t.
  pose proof (nsg_create_takes_named_lock
                         Script.parseAzureResourceID
                         Script.azureRMNormalizeLocation Script.expandTags
                         Script.flattenAndSetTags 3 Script.creating
                         Script.creating (sampleData []) (sampleData [])
                         0%nat 0%nat) as H.
  cbv zeta in H. destruct H as (_ & H & _).
  apply H; [reflexivity|].
  vm_compute. build_interleaving.
Defined.

(** C5, as stated, fails for the delete handler: it issues its Delete call
    without taking the lock, so the call can happen while a create/update
    of the same group "nsg1" holds the lock and is between two of its own
    calls. *)
Lemma nsg_delete_takes_no_lock :
  let create_log := hs_log (run (Script.nsgCreate Script.creating)
                              (sampleData []) 0%nat).2 in
  let delete_log := hs_log (run (Script.nsgDelete Script.creating)
                              (Script.stored Script.nsgId) 0%nat).2 in
  delete_log = [EvSecGroupDelete "rg1" "nsg1" None]
  ∧ ∃ before after,
      create_log = before ++ after
      ∧ EvLock "nsg1" "azurerm_network_security_group" ∈ before
      ∧ EvUnlock "nsg1" "azurerm_network_security_group" ∈ after
      ∧ interleaving ∅ create_log delete_log
          (tagged false before ++ tagged true delete_log
             ++ tagged false after).
Proof.
  intros create_log delete_log. split; [reflexivity|].
  exists (take 2 create_log), (drop 2 create_log).
  split; [by rewrite take_drop|]. 
  split; [vm_compute; apply list_elem_of_here|].
  split; [vm_compute; do 6 apply list_elem_of_further; apply list_elem_of_here|].
  vm_compute.
  build_interleaving.
Qed.

(** ** Creating an automation account *)

Lemma count_events_app p l1 l2 :
  count_events p (l1 ++ l2) = (count_events p l1 + count_events p l2)%nat.
Proof. induction l1 as [|ev l1 IH]; simpl; [done|]. rewrite IH. lia. Qed.

Lemma count_events_none p q l :
  (∀ ev, q ev = true → p ev = false) →
  Forall (λ ev, q ev = true) l → count_events p l = 0%nat.
Proof.
  intros Hpq. induction 1 as [|ev l Hev _ IH]; simpl; [done|].
  by rewrite (Hpq _ Hev), IH.
Qed.

Section AccountCreate.
Context {W : Type}.
Variable parseAzureResourceID : string → ResourceID + error.
Variable azureRMNormalizeLocation : string → string.
Variable expandTags : gmap string value → result Tags.
Variable flattenAndSetTags : ResourceData → Tags → ResourceData.
Variable meta : ArmClient W.

(** When the Read handler returns an error it has not written anything. *)
Lemma account_read_error_keeps_d st e st' :
  resourceArmAutomationAccountRead parseAzureResourceID
    azureRMNormalizeLocation flattenAndSetTags meta st = (Ok (Some e), st') →
  hs_d st' = hs_d st.
Proof.
  unfold resourceArmAutomationAccountRead, accountGet, flattenAndSetSku,
    bind, read_d, call, modify_d, lift, ret.
  intros H. repeat case_match; simplify_eq/=; done.
Qed.
End AccountCreate.

(** C6, as amended: [resourceArmAutomationAccountCreateUpdate] builds an
    AccountCreateOrUpdateParameters request from the name, location,
    resource_group_name, sku and tags configuration attributes, issues
    exactly one CreateOrUpdate client call, then re-reads the account; it
    returns the error of CreateOrUpdate when that fails, the error of the
    subsequent Get when that fails, and an error when the read-back ID is
    nil, and in those three cases the resource ID is not set and nothing
    else is done. Otherwise it sets the resource ID to the read-back ID and
    ends as the Read handler, which flattens the account back into state:
    it returns what Read returns, and when that is an error the resource ID
    stays set. *)
Theorem account_create_outcome {W : Type}
  (parseAzureResourceID : string → ResourceID + error)
  (azureRMNormalizeLocation : string → string)
  (expandTags : gmap string value → result Tags)
  (flattenAndSetTags : ResourceData → Tags → ResourceData)
  (meta : ArmClient W) (d : ResourceData) (w : W)
  (name location resGroup : string) (tags : gmap string value)
  (tags' : Tags) (sku : automation.Sku) :
  Get d "name" = Some (VString name) →
  Get d "location" = Some (VString location) →
  Get d "resource_group_name" = Some (VString resGroup) →
  Get d "tags" = Some (VMap tags) →
  expandSku d = Ok sku →
  expandTags tags = Ok tags' →
  let client := automationAccountClient meta in
  let read_handler :=
    resourceArmAutomationAccountRead parseAzureResourceID
      azureRMNormalizeLocation flattenAndSetTags meta in
  let parameters :=
    {| automation.cu_Properties := Some {| automation.cu_Sku := Some sku |};
       automation.cu_Location := Some location;
       automation.cu_Tags := tags' |} in
  let '(err1, w1) := acc_CreateOrUpdate client resGroup name parameters w in
  let '(read, err2, w2) := acc_Get client resGroup name w1 in
  let ev1 := EvAccountCreateOrUpdate resGroup name parameters err1 in
  let ev2 := EvAccountGet resGroup name read err2 in
  let '(r, st) :=
    run (resourceArmAutomationAccountCreateUpdate parseAzureResourceID
           azureRMNormalizeLocation expandTags flattenAndSetTags meta) d w in
  count_events is_account_create_or_update (hs_log st) = 1%nat
  ∧ match err1, err2, automation.ID read with
    | Some e, _, _ => r = Ok (Some e) ∧ hs_d st = d ∧ hs_log st = [ev1]
    | None, Some e, _ =>
        r = Ok (Some e) ∧ hs_d st = d ∧ hs_log st = [ev1; ev2]
    | None, None, None =>
        r = Ok (Some (Errorf "Cannot read Automation Account '%s' (resource group %s) ID"
                        [ArgString name; ArgString resGroup]))
        ∧ hs_d st = d ∧ hs_log st = [ev1; ev2]
    | None, None, Some id =>
        (r, st) = read_handler {| hs_d := SetId id d; hs_w := w2;
                                  hs_log := [ev1; ev2] |}
        ∧ (∀ e, r = Ok (Some e) → hs_d st = SetId id d)
    end.
Proof.
  intros Hname Hloc Hrg Htags Hsku Hexp client read_handler parameters.
  destruct (acc_CreateOrUpdate _ _ _ _ _) as [err1 w1] eqn:Hcu.
  destruct (acc_Get _ _ _ _) as [[read err2] w2] eqn:Hget.
  unfold run, resourceArmAutomationAccountCreateUpdate, accountGet.
  erewrite bind_get_string by exact Hname.
  erewrite bind_get_string by exact Hloc.
  erewrite bind_get_string by exact Hrg.
  erewrite bind_get_map by exact Htags.
  rewrite bind_read_d.
  erewrite bind_lift_Ok by exact Hsku.
  erewrite bind_lift_Ok by exact Hexp.
  fold client parameters. erewrite bind_call by exact Hcu.
  cbn [hs_d hs_w hs_log app].
  destruct err1 as [e1|]; [by simpl|].
  erewrite bind_call by exact Hget. cbn [hs_d hs_w hs_log app fst snd].
  destruct err2 as [e2|]; [by simpl|].
  destruct (automation.ID read) as [id|]; [|by simpl].
  rewrite bind_modify_d. cbn [hs_d hs_w hs_log].
  fold read_handler.
  destruct (read_handler _) as [r st] eqn:Hread.
  split; [|split; [done|]].
  - destruct (emits_account_read _ _ _ _ _ _ _ Hread) as (evs & -> & Hevs).
    rewrite count_events_app. simpl.
    rewrite (count_events_none _ is_account_get); [done| |done].
    by intros [].
  - intros e ->.
    by rewrite (account_read_error_keeps_d _ _ _ _ _ _ _ Hread).
Qed.

Lemma account_create_outcome_witness :
  let '(r, st) := run (Script.accountCreate Script.accountThere)
                    Script.accountConfig 0%nat in
  count_events is_account_create_or_update (hs_log st) = 1%nat
  ∧ r = Ok None
  ∧ rd_id (hs_d st) = Script.accId.
Proof.
  pose proof (account_create_outcome Script.parseAzureResourceID
                Script.azureRMNormalizeLocation Script.expandTags
                Script.flattenAndSetTags Script.accountThere
                Script.accountConfig 0%nat "acc1" "westeurope" "rg1" ∅ None
                {| automation.sku_Name := "Basic" |}
                eq_refl eq_refl eq_refl eq_refl eq_refl eq_refl) as H.
  vm_cast_in H. vm_compute. destruct H as [Hcount _].
  split; [exact Hcount|done].
Defined.

(** C6, as stated, fails: CreateOrUpdate succeeds, the subsequent Get
    succeeds and carries an ID, and still the handler returns an error, the
    one of the Get inside the concluding Read, with the resource ID set. *)
Lemma account_create_fails_after_read_back :
  let '(r, st) := run (Script.accountCreate Script.accountFlaky)
                    Script.accountConfig 0%nat in
  hs_log st
  = [EvAccountCreateOrUpdate "rg1" "acc1" Script.accountParameters None;
     EvAccountGet "rg1" "acc1" Script.accOk.1 None;
     EvAccountGet "rg1" "acc1"
       (Script.accAnswer None None None).1 (Some Script.serverError)]
  ∧ automation.ID Script.accOk.1 = Some Script.accId
  ∧ r = Ok (Some (Errorf "Error making Read request on AzureRM Automation Account '%s': %+v"
                    [ArgString "acc1"; ArgError Script.serverError]))
  ∧ rd_id (hs_d st) = Script.accId
  ∧ rd_id Script.accountConfig = "".
Proof. vm_compute. done. Qed.

(** ** Waiting for the security group to be provisioned *)






(** When the polls are used up the handler reports the timeout and the
    resource ID stays as it was. *)
Example nsg_create_times_out :
  let '(r, st) := run (Script.nsgCreate Script.stuck) (sampleData []) 0%nat in
  r = Ok (Some (Errorf "Error waiting for NSG (%q) to become available: %+v"
                  [ArgString "nsg1"; ArgError resource.TimeoutError]))
  ∧ hs_d st = sampleData []
  ∧ refreshStates (hs_log st) = ["Updating"; "Updating"; "Updating"].
Proof. vm_compute. done. Qed.

(** * Further properties of the handlers and their helpers *)

(** ** Flattening security rules *)

Lemma flattenRulesLoop_cons rule rest :
  flattenRulesLoop (rule :: rest) [] =
  (v ←! flattenNetworkSecurityRule rule;
   vs ←! flattenRulesLoop rest [];
   Ok (v :: vs)).
Proof.
  cbn [flattenRulesLoop].
  destruct (flattenNetworkSecurityRule rule) as [v|]; [|done].
  cbn [rbind]. by rewrite flattenRulesLoop_acc.
Qed.

Lemma flatten_rule_returns rule :
  (∃ v, flattenNetworkSecurityRule rule = Ok v) ↔ rule_flattens rule.
Proof.
  unfold rule_flattens, flattenNetworkSecurityRule.
  destruct rule as [[name|] [props|]]; simpl.
  - destruct (network.Priority props) as [z|] eqn:Hz; simpl.
    + split; [|eauto]. intros _. split; [eauto|].
      intros ? [= <-]. rewrite Hz. eauto.
    + split; [by intros [? ?]|]. intros [_ H].
      destruct (H props eq_refl) as [? Hp]. congruence.
  - split; [|eauto]. intros _. split; [eauto|]. by intros ? [=].
  - split; [by intros [? ?]|]. by intros [[? [=]] _].
  - split; [by intros [? ?]|]. by intros [[? [=]] _].
Qed.

Lemma flattenRulesLoop_returns rules :
  (∃ l, flattenRulesLoop rules [] = Ok l) ↔ Forall rule_flattens rules.
Proof.
  induction rules as [|rule rest IH].
  - split; [constructor|]. by exists [].
  - rewrite flattenRulesLoop_cons, Forall_cons.
    rewrite <- IH, <- flatten_rule_returns.
    destruct (flattenNetworkSecurityRule rule) as [v|]; simpl.
    + destruct (flattenRulesLoop rest []) as [vs|]; simpl.
      * split; eauto.
      * split; [by intros [? ?]|]. by intros [_ [? ?]].
    + split; [by intros [? ?]|]. by intros [[? ?] _].
Qed.

(** X1: [flattenNetworkSecurityRules] gives the empty list for a nil
    pointer, and for a list of rules it returns exactly when every rule has
    a name and every rule with properties has a priority; a nil name or a
    nil priority makes it panic. *)
Theorem flatten_rules_returns (rules : list network.SecurityRule) :
  flattenNetworkSecurityRules None = Ok []
  ∧ ((∃ l, flattenNetworkSecurityRules (Some rules) = Ok l)
     ↔ Forall rule_flattens rules)
  ∧ (¬ Forall rule_flattens rules ↔
     flattenNetworkSecurityRules (Some rules) = Panic).
Proof.
  split; [done|].
  pose proof (flattenRulesLoop_returns rules) as Hiff.
  change (flattenRulesLoop rules [])
    with (flattenNetworkSecurityRules (Some rules)) in Hiff.
  split; [exact Hiff|]. rewrite <- Hiff.
  destruct (flattenNetworkSecurityRules (Some rules)) as [l|].
  - split; [|done]. intros H. destruct H. eauto.
  - split; [done|]. intros _ [? ?]. done.
Qed.

(** X2: when [flattenNetworkSecurityRules] returns, it returns one map per
    rule, in the order of the rules, and the map of a rule carries the
    rule's name under "name". *)
Theorem flatten_rules_one_map_per_rule (rules : list network.SecurityRule)
  (l : list value) :
  flattenNetworkSecurityRules (Some rules) = Ok l →
  length l = length rules
  ∧ ∀ i rule, rules !! i = Some rule →
      ∃ m name, l !! i = Some (VMap m)
                ∧ network.rule_Name rule = Some name
                ∧ m !! "name" = Some (VString name).
Proof.
  simpl. revert l. induction rules as [|rule rest IH]; intros l.
  - intros [= <-]. split; [done|]. by intros i rule.
  - rewrite flattenRulesLoop_cons.
    destruct (flattenNetworkSecurityRule rule) as [v|] eqn:Hv; [|done].
    destruct (flattenRulesLoop rest []) as [vs|]; [|done].
    simpl. intros [= <-]. destruct (IH vs eq_refl) as [Hlen Hnth].
    split; [simpl; by rewrite Hlen|].
    intros [|i] rule' Hi; simpl in *; [|by apply Hnth].
    injection Hi as <-. unfold flattenNetworkSecurityRule in Hv.
    destruct (network.rule_Name rule) as [name|]; [|done]. simpl in Hv.
    destruct (network.rule_Properties rule) as [props|].
    + destruct (network.Priority props) as [z|]; [|done]. simpl in Hv.
      injection Hv as <-. eexists _, name. split; [done|]. split; [done|].
      destruct (network.Description props);
        destruct (network.SourcePortRange props);
        destruct (network.SourceAddressPrefix props);
        destruct (network.DestinationPortRange props);
        destruct (network.DestinationAddressPrefix props);
        by simplify_map_eq.
    + injection Hv as <-. eexists _, name. by simplify_map_eq.
Qed.

Lemma flatten_rules_one_map_per_rule_witness :
  ∃ m name,
    [VMap (sampleRule 100)] !! 0%nat = Some (VMap m)
    ∧ network.rule_Name (sampleSdkRule (Some "ssh from anywhere")) = Some name
    ∧ m !! "name" = Some (VString name).
Proof.
  apply (proj2 (flatten_rules_one_map_per_rule
                  [sampleSdkRule (Some "ssh from anywhere")]
                  [VMap (sampleRule 100)]
                  ltac:(vm_compute; reflexivity))
           0%nat (sampleSdkRule (Some "ssh from anywhere")) eq_refl).
Defined.

Lemma lookup_opt_insert_ne {A} (o : option A) (f : A → value) k j
  (m : gmap string value) :
  k ≠ j →
  match o with Some v => <[k := f v]> m | None => m end !! j = m !! j.
Proof. intros. destruct o; [by rewrite lookup_insert_ne|done]. Qed.

Lemma lookup_opt_insert_eq {A} (o : option A) (f : A → value) k
  (m : gmap string value) :
  m !! k = None →
  match o with Some v => <[k := f v]> m | None => m end !! k = f <$> o.
Proof. intros. destruct o; [by rewrite lookup_insert_eq|done]. Qed.

Ltac flat_lookup :=
  repeat first
    [ rewrite lookup_insert_eq
    | rewrite lookup_empty
    | rewrite lookup_insert_ne by done
    | rewrite lookup_opt_insert_ne by done
    | rewrite lookup_opt_insert_eq ].

(** X3: how [flattenNetworkSecurityRules] names the fields. A rule without
    properties becomes a map with the name only. A rule with properties
    gets "priority", "access", "direction" and "protocol" always, each of
    the four range/prefix keys and "description" exactly when the pointer is
    not nil, every one with the unchanged value of the field of the same
    name, and no other key. *)
Theorem flatten_rule_fields (rule : network.SecurityRule)
  (m : gmap string value) :
  flattenNetworkSecurityRule rule = Ok (VMap m) →
  m !! "name" = VString <$> network.rule_Name rule
  ∧ (∀ k, k ∉ securityRuleFields → m !! k = None)
  ∧ match network.rule_Properties rule with
    | None => m = {["name" := default VNil (m !! "name")]}
    | Some props =>
        m !! "destination_address_prefix"
        = VString <$> network.DestinationAddressPrefix props
        ∧ m !! "destination_port_range"
          = VString <$> network.DestinationPortRange props
        ∧ m !! "source_address_prefix"
          = VString <$> network.SourceAddressPrefix props
        ∧ m !! "source_port_range"
          = VString <$> network.SourcePortRange props
        ∧ m !! "priority" = VInt <$> network.Priority props
        ∧ m !! "access" = Some (VString (network.Access props))
        ∧ m !! "direction" = Some (VString (network.Direction props))
        ∧ m !! "protocol" = Some (VString (network.Protocol props))
        ∧ m !! "description" = VString <$> network.Description props
    end.
Proof.
  unfold flattenNetworkSecurityRule.
  destruct (network.rule_Name rule) as [name|]; [|done]. simpl.
  assert (∀ k, k ∉ securityRuleFields →
               k ≠ "name" ∧ k ≠ "destination_address_prefix"
               ∧ k ≠ "destination_port_range" ∧ k ≠ "source_address_prefix"
               ∧ k ≠ "source_port_range" ∧ k ≠ "priority" ∧ k ≠ "access"
               ∧ k ≠ "direction" ∧ k ≠ "protocol" ∧ k ≠ "description")
    as Hother.
  { intros k Hk. repeat split; intros ->; apply Hk;
      unfold securityRuleFields, securityRuleStringFields;
      by repeat constructor. }
  destruct (network.rule_Properties rule) as [props|].
  - destruct (network.Priority props) as [z|]; [|done]. simpl.
    intros [= <-]. split; [by flat_lookup|]. split.
    + intros k Hk. destruct (Hother k Hk) as (?&?&?&?&?&?&?&?&?&?).
      by flat_lookup.
    + repeat split; by flat_lookup.
  - intros [= <-]. split; [by simplify_map_eq|]. split.
    + intros k Hk. destruct (Hother k Hk) as (?&_). by simplify_map_eq.
    + by simplify_map_eq.
Qed.

Lemma flatten_rule_fields_witness :
  sampleRule 100 !! "name"
  = VString <$> network.rule_Name (sampleSdkRule (Some "ssh from anywhere")).
Proof.
  apply (flatten_rule_fields (sampleSdkRule (Some "ssh from anywhere"))
           (sampleRule 100) ltac:(vm_compute; reflexivity)).
Defined.

(** ** Expanding security rules *)

Lemma expandRulesLoop_cons sgRaw rest :
  expandRulesLoop (sgRaw :: rest) [] =
  (rule ←! expandSecurityRule sgRaw;
   rules ←! expandRulesLoop rest [];
   Ok (rule :: rules)).
Proof.
  cbn [expandRulesLoop].
  destruct (expandSecurityRule sgRaw) as [rule|]; [|done].
  cbn [rbind]. by rewrite expandRulesLoop_acc.
Qed.

Lemma assert_string_returns v :
  (∃ s, assert_string v = Ok s) ↔ ∃ s, v = Some (VString s).
Proof.
  destruct v as [[]|]; simpl; split; intros [? ?]; simplify_eq; eauto.
Qed.

(** What [expandAzureRmSecurityRules] makes of one well-typed rule map. *)
Lemma expand_rule_typed (m : gmap string value)
  name spr dpr sap dap access direction protocol description priority :
  m !! "name" = Some (VString name) →
  m !! "source_port_range" = Some (VString spr) →
  m !! "destination_port_range" = Some (VString dpr) →
  m !! "source_address_prefix" = Some (VString sap) →
  m !! "destination_address_prefix" = Some (VString dap) →
  m !! "priority" = Some (VInt priority) →
  m !! "access" = Some (VString access) →
  m !! "direction" = Some (VString direction) →
  m !! "protocol" = Some (VString protocol) →
  m !! "description" = Some (VString description) →
  expandSecurityRule (VMap m) =
  Ok {| network.rule_Name := Some name;
        network.rule_Properties :=
          Some {| network.SourcePortRange := Some spr;
                  network.DestinationPortRange := Some dpr;
                  network.SourceAddressPrefix := Some sap;
                  network.DestinationAddressPrefix := Some dap;
                  network.Priority := Some (int32 priority);
                  network.Access := access;
                  network.Direction := direction;
                  network.Protocol := protocol;
                  network.Description :=
                    if decide (description = "") then None
                    else Some description |} |}.
Proof.
  intros. unfold expandSecurityRule. simpl.
  repeat match goal with H : m !! _ = _ |- _ => rewrite H; clear H end.
  done.
Qed.

Lemma rule_typed_lookups m :
  rule_typed m →
  ∃ name spr dpr sap dap access direction protocol description priority,
    m !! "name" = Some (VString name)
    ∧ m !! "source_port_range" = Some (VString spr)
    ∧ m !! "destination_port_range" = Some (VString dpr)
    ∧ m !! "source_address_prefix" = Some (VString sap)
    ∧ m !! "destination_address_prefix" = Some (VString dap)
    ∧ m !! "priority" = Some (VInt priority)
    ∧ m !! "access" = Some (VString access)
    ∧ m !! "direction" = Some (VString direction)
    ∧ m !! "protocol" = Some (VString protocol)
    ∧ m !! "description" = Some (VString description).
Proof.
  intros (Hs & [z Hz] & [desc Hdesc]).
  destruct (Hs "name") as [name Hname]; [by repeat constructor|].
  destruct (Hs "source_port_range") as [spr Hspr]; [by repeat constructor|].
  destruct (Hs "destination_port_range") as [dpr Hdpr];
    [by repeat constructor|].
  destruct (Hs "source_address_prefix") as [sap Hsap];
    [by repeat constructor|].
  destruct (Hs "destination_address_prefix") as [dap Hdap];
    [by repeat constructor|].
  destruct (Hs "access") as [acc Hacc]; [by repeat constructor|].
  destruct (Hs "direction") as [dir Hdir]; [by repeat constructor|].
  destruct (Hs "protocol") as [proto Hproto]; [by repeat constructor|].
  exists name, spr, dpr, sap, dap, acc, dir, proto, desc, z. done.
Qed.

Lemma expand_rule_returns v :
  (∃ rule, expandSecurityRule v = Ok rule)
  ↔ ∃ m, v = VMap m ∧ rule_typed m.
Proof.
  split.
  - intros [rule Hrule]. unfold expandSecurityRule in Hrule.
    destruct v as [| | | |m]; try done. exists m. split; [done|].
    simpl in Hrule.
    destruct (assert_string (m !! "name")) as [name|] eqn:H1; [|done].
    destruct (assert_string (m !! "source_port_range")) as [spr|] eqn:H2;
      [|done].
    destruct (assert_string (m !! "destination_port_range")) as [dpr|]
      eqn:H3; [|done].
    destruct (assert_string (m !! "source_address_prefix")) as [sap|]
      eqn:H4; [|done].
    destruct (assert_string (m !! "destination_address_prefix")) as [dap|]
      eqn:H5; [|done].
    simpl in Hrule.
    destruct (m !! "priority") as [[|?|z|?|?]|] eqn:H6; try done.
    simpl in Hrule.
    destruct (assert_string (m !! "access")) as [acc|] eqn:H7; [|done].
    destruct (assert_string (m !! "direction")) as [dir|] eqn:H8; [|done].
    destruct (assert_string (m !! "protocol")) as [proto|] eqn:H9; [|done].
    destruct (assert_string (m !! "description")) as [desc|] eqn:H10;
      [|done].
    apply assert_string_Ok in H1, H2, H3, H4, H5, H7, H8, H9, H10.
    split; [|split; eauto].
    intros k Hk. unfold securityRuleStringFields in Hk.
    repeat (apply elem_of_cons in Hk as [->|Hk]; [eauto|]).
    by apply elem_of_nil in Hk.
  - intros (m & -> & Htyped).
    destruct (rule_typed_lookups m Htyped)
      as (?&?&?&?&?&?&?&?&?&?&?&?&?&?&?&?&?&?&?&?).
    eexists. by eapply expand_rule_typed.
Qed.

(** X4: [expandAzureRmSecurityRules] returns exactly when "security_rule"
    holds a list whose elements are all maps with the eight string fields
    as strings, "priority" as an int and "description" as a string; a
    missing attribute, a missing key or a value of another type makes it
    panic. When it returns, the error is nil and there is one rule per
    map. *)
Theorem expand_rules_returns (d : ResourceData) :
  ((∃ rules err, expandAzureRmSecurityRules d = Ok (rules, err))
   ↔ ∃ l, Get d "security_rule" = Some (VList l)
          ∧ Forall (λ v, ∃ m, v = VMap m ∧ rule_typed m) l)
  ∧ ∀ rules err l,
      expandAzureRmSecurityRules d = Ok (rules, err) →
      Get d "security_rule" = Some (VList l) →
      err = None ∧ length rules = length l.
Proof.
  assert (∀ l, (∃ rules, expandRulesLoop l [] = Ok rules)
               ↔ Forall (λ v, ∃ m, v = VMap m ∧ rule_typed m) l) as Hloop.
  { induction l as [|v l IH].
    - split; [constructor|]. by exists [].
    - rewrite expandRulesLoop_cons, Forall_cons.
      rewrite <- IH, <- expand_rule_returns.
      destruct (expandSecurityRule v) as [r|]; simpl.
      + destruct (expandRulesLoop l []) as [rs|]; simpl.
        * split; eauto.
        * split; [by intros [? ?]|]. by intros [_ [? ?]].
      + split; [by intros [? ?]|]. by intros [[? ?] _]. }
  assert (∀ l rules, expandRulesLoop l [] = Ok rules →
                     length rules = length l) as Hlen.
  { induction l as [|v l IH]; intros rules.
    - by intros [= <-].
    - rewrite expandRulesLoop_cons.
      destruct (expandSecurityRule v) as [r|]; [|done].
      destruct (expandRulesLoop l []) as [rs|]; [|done].
      simpl. intros [= <-]. simpl. by rewrite (IH rs). }
  unfold expandAzureRmSecurityRules. split.
  - destruct (Get d "security_rule") as [[| | |l|]|]; simpl;
      try (split; [by intros (?&?&?)|by intros (?&?&?)]).
    pose proof (Hloop l) as Hl.
    destruct (expandRulesLoop l []) as [rs|]; simpl.
    + split; [intros _; exists l; split; [done|]; apply Hl; eauto|eauto].
    + split; [by intros (?&?&?)|]. intros (l' & [= <-] & Hall).
      apply Hl in Hall as [? ?]. done.
  - intros rules err l Hrun Hget. rewrite Hget in Hrun. simpl in Hrun.
    destruct (expandRulesLoop l []) as [rs|] eqn:Hrs; [|done].
    simpl in Hrun. injection Hrun as <- <-. split; [done|]. by apply Hlen.
Qed.

Lemma expand_rules_returns_witness :
  @None error = None
  ∧ length [sampleSdkRule (Some "ssh from anywhere")]
    = length [VMap (sampleRule 100)].
Proof.
  apply (proj2 (expand_rules_returns (sampleData [sampleRule 100]))
           [sampleSdkRule (Some "ssh from anywhere")] None
           [VMap (sampleRule 100)]
           ltac:(vm_compute; reflexivity) ltac:(vm_compute; reflexivity)).
Defined.

Lemma int32_range z : - 2 ^ 31 ≤ int32 z < 2 ^ 31.
Proof.
  unfold int32. pose proof (Z.mod_pos_bound (z + 2 ^ 31) (2 ^ 32)). lia.
Qed.

Lemma int32_congruent z : (int32 z - z) mod 2 ^ 32 = 0.
Proof.
  unfold int32.
  replace ((z + 2 ^ 31) mod 2 ^ 32 - 2 ^ 31 - z)
    with ((z + 2 ^ 31) mod 2 ^ 32 - (z + 2 ^ 31)) by lia.
  rewrite Zminus_mod, Z.mod_mod by lia.
  rewrite Z.sub_diag. done.
Qed.

(** X5: the rule that [expandAzureRmSecurityRules] builds from a rule map
    has its name, both port ranges, both address prefixes and the priority
    set (never nil); the priority is the configured number reduced to a
    signed 32-bit value, the same number whenever the configured one is in
    the schema's range 100..4096; and the description pointer is nil
    exactly when the configured description is the empty string. *)
Theorem expand_rule_fields (m : gmap string value)
  (rule : network.SecurityRule) :
  expandSecurityRule (VMap m) = Ok rule →
  ∃ props z description,
    network.rule_Properties rule = Some props
    ∧ m !! "priority" = Some (VInt z)
    ∧ m !! "description" = Some (VString description)
    ∧ m !! "name" = VString <$> network.rule_Name rule
    ∧ m !! "source_port_range" = VString <$> network.SourcePortRange props
    ∧ m !! "destination_port_range"
      = VString <$> network.DestinationPortRange props
    ∧ m !! "source_address_prefix"
      = VString <$> network.SourceAddressPrefix props
    ∧ m !! "destination_address_prefix"
      = VString <$> network.DestinationAddressPrefix props
    ∧ (∃ p, network.Priority props = Some p
            ∧ - 2 ^ 31 ≤ p < 2 ^ 31
            ∧ (p - z) mod 2 ^ 32 = 0
            ∧ ((100 ≤ z ≤ 4096)%Z → p = z))
    ∧ (network.Description props = None ↔ description = "")
    ∧ (description ≠ "" → network.Description props = Some description).
Proof.
  intros Hrule.
  assert (∃ m', VMap m = VMap m' ∧ rule_typed m') as (? & [= <-] & Htyped)
    by (apply expand_rule_returns; eauto).
  destruct (rule_typed_lookups m Htyped)
    as (name & spr & dpr & sap & dap & acc & dir & proto & desc & z
        & H1 & H2 & H3 & H4 & H5 & H6 & H7 & H8 & H9 & H10).
  rewrite (expand_rule_typed m _ _ _ _ _ _ _ _ _ _
             H1 H2 H3 H4 H5 H6 H7 H8 H9 H10) in Hrule.
  injection Hrule as <-. eexists _, z, desc. simpl.
  repeat (split; [done|]). split; [|split].
  - exists (int32 z). split; [done|]. split; [apply int32_range|].
    split; [apply int32_congruent|]. intros Hz. apply int32_small. lia.
  - destruct (decide (desc = "")); split; done.
  - intros Hne. by destruct (decide (desc = "")).
Qed.

Lemma expand_rule_fields_witness :
  ∃ props z description,
    network.rule_Properties (sampleSdkRule (Some "ssh from anywhere"))
    = Some props
    ∧ sampleRule 100 !! "priority" = Some (VInt z)
    ∧ sampleRule 100 !! "description" = Some (VString description)
    ∧ sampleRule 100 !! "name"
      = VString <$> network.rule_Name (sampleSdkRule (Some "ssh from anywhere"))
    ∧ sampleRule 100 !! "source_port_range"
      = VString <$> network.SourcePortRange props
    ∧ sampleRule 100 !! "destination_port_range"
      = VString <$> network.DestinationPortRange props
    ∧ sampleRule 100 !! "source_address_prefix"
      = VString <$> network.SourceAddressPrefix props
    ∧ sampleRule 100 !! "destination_address_prefix"
      = VString <$> network.DestinationAddressPrefix props
    ∧ (∃ p, network.Priority props = Some p
            ∧ - 2 ^ 31 ≤ p < 2 ^ 31
            ∧ (p - z) mod 2 ^ 32 = 0
            ∧ ((100 ≤ z ≤ 4096)%Z → p = z))
    ∧ (network.Description props = None ↔ description = "")
    ∧ (description ≠ "" → network.Description props = Some description).
Proof.
  apply (expand_rule_fields (sampleRule 100)
           (sampleSdkRule (Some "ssh from anywhere"))
           ltac:(vm_compute; reflexivity)).
Defined.

(** ** Flatten, then expand *)

Lemma expand_flatten_rule (rule : network.SecurityRule) :
  populated_rule rule →
  ∃ v, flattenNetworkSecurityRule rule = Ok v
       ∧ expandSecurityRule v = Ok rule.
Proof.
  intros ([name Hname] & props & Hprops & [spr Hspr] & [dpr Hdpr]
          & [sap Hsap] & [dap Hdap] & (z & Hz & Hrange)
          & (desc & Hdesc & Hne)).
  destruct rule as [rname rprops]. simpl in *. subst rname rprops.
  destruct props as [d0 proto s1 s2 s3 s4 acc p0 dir]. simpl in *. subst.
  unfold flattenNetworkSecurityRule. simpl. eexists. split; [done|].
  erewrite expand_rule_typed; [|by simplify_map_eq..].
  unfold int_of_int32. rewrite (int32_small z Hrange).
  by destruct (decide (desc = "")).
Qed.

(** X6: what Read stores, Create reads back. For rules as the API returns
    them with every pointer set and a non-empty description,
    [flattenNetworkSecurityRules] returns a list that, once it is set as
    "security_rule", [expandAzureRmSecurityRules] turns back into the very
    same rules, in the same order. *)
Theorem expand_flatten_rules (d : ResourceData)
  (rules : list network.SecurityRule) :
  Forall populated_rule rules →
  ∃ l, flattenNetworkSecurityRules (Some rules) = Ok l
       ∧ expandAzureRmSecurityRules (Set_ "security_rule" (VList l) d)
         = Ok (rules, None).
Proof.
  intros Hall.
  assert (∃ l, flattenRulesLoop rules [] = Ok l
               ∧ expandRulesLoop l [] = Ok rules) as (l & Hf & He).
  { induction Hall as [|rule rest Hrule _ (l & Hf & He)]; [by exists []|].
    destruct (expand_flatten_rule rule Hrule) as (v & Hv & Hr).
    exists (v :: l). rewrite flattenRulesLoop_cons, Hv, Hf. split; [done|].
    by rewrite expandRulesLoop_cons, Hr, He. }
  exists l. split; [done|]. unfold expandAzureRmSecurityRules, Get, Set_.
  cbn [rd_attrs]. rewrite lookup_insert_eq. cbn [assert_list rbind].
  by rewrite He.
Qed.

Lemma sampleSdkRule_populated :
  populated_rule (sampleSdkRule (Some "ssh from anywhere")).
Proof.
  split; [by eexists|]. eexists. split; [reflexivity|]. simpl.
  do 4 (split; [by eexists|]). split.
  - exists 100. split; [done|lia].
  - by eexists.
Qed.

Lemma expand_flatten_rules_witness :
  let rules := [sampleSdkRule (Some "ssh from anywhere")] in
  ∃ l, flattenNetworkSecurityRules (Some rules) = Ok l
       ∧ expandAzureRmSecurityRules
           (Set_ "security_rule" (VList l) (sampleData []))
         = Ok (rules, None).
Proof.
  intros rules. apply (expand_flatten_rules (sampleData []) rules).
  constructor; [apply sampleSdkRule_populated|constructor].
Defined.

(** ** Expand, then flatten, at the edges of the round trip *)

(** X7: a rule whose description is the empty string does not come back
    as it went in: [expandAzureRmSecurityRules] leaves the description
    pointer nil, and [flattenNetworkSecurityRules] then gives the rule map
    without its "description" key, all other fields unchanged. *)
Theorem round_trip_drops_empty_description (m : gmap string value) :
  rule_typed m →
  m !! "description" = Some (VString "") →
  (∀ k, is_Some (m !! k) → k ∈ securityRuleFields) →
  priority_fits_int32 m →
  ∃ rule props,
    expandSecurityRule (VMap m) = Ok rule
    ∧ network.rule_Properties rule = Some props
    ∧ network.Description props = None
    ∧ flattenNetworkSecurityRule rule = Ok (VMap (delete "description" m))
    ∧ delete "description" m ≠ m.
Proof.
  intros Htyped Hempty Honly Hfit.
  destruct (rule_typed_lookups m Htyped)
    as (name & spr & dpr & sap & dap & acc & dir & proto & desc & z
        & H1 & H2 & H3 & H4 & H5 & H6 & H7 & H8 & H9 & H10).
  rewrite Hempty in H10. injection H10 as <-.
  eexists _, _. split; [by eapply expand_rule_typed|].
  split; [reflexivity|]. split; [reflexivity|]. split.
  - unfold flattenNetworkSecurityRule. simpl.
    rewrite (int32_small z (Hfit z H6)). unfold int_of_int32.
    do 2 f_equal. apply map_eq. intros i.
    destruct (decide (i = "description")) as [->|?];
      [by simplify_map_eq|rewrite lookup_delete_ne by done].
    destruct (decide (i = "protocol")) as [->|?];
      [by rewrite lookup_insert_eq|rewrite lookup_insert_ne by done].
    destruct (decide (i = "direction")) as [->|?];
      [by rewrite lookup_insert_eq|rewrite lookup_insert_ne by done].
    destruct (decide (i = "access")) as [->|?];
      [by rewrite lookup_insert_eq|rewrite lookup_insert_ne by done].
    destruct (decide (i = "priority")) as [->|?];
      [by rewrite lookup_insert_eq|rewrite lookup_insert_ne by done].
    destruct (decide (i = "source_port_range")) as [->|?];
      [by rewrite lookup_insert_eq|rewrite lookup_insert_ne by done].
    destruct (decide (i = "source_address_prefix")) as [->|?];
      [by rewrite lookup_insert_eq|rewrite lookup_insert_ne by done].
    destruct (decide (i = "destination_port_range")) as [->|?];
      [by rewrite lookup_insert_eq|rewrite lookup_insert_ne by done].
    destruct (decide (i = "destination_address_prefix")) as [->|?];
      [by rewrite lookup_insert_eq|rewrite lookup_insert_ne by done].
    destruct (decide (i = "name")) as [->|?];
      [by rewrite lookup_insert_eq|rewrite lookup_insert_ne by done].
    rewrite lookup_empty. symmetry. apply eq_None_not_Some. intros Hsome.
    apply Honly in Hsome.
    unfold securityRuleFields, securityRuleStringFields in Hsome.
    repeat (apply elem_of_cons in Hsome as [->|Hsome]; [done|]).
    by apply elem_of_nil in Hsome.
  - intros Heq. apply (f_equal (λ m', m' !! "description")) in Heq.
    rewrite lookup_delete_eq, Hempty in Heq. done.
Qed.

Lemma round_trip_drops_empty_description_witness :
  ∃ rule props,
    expandSecurityRule (VMap emptyDescriptionRule) = Ok rule
    ∧ network.rule_Properties rule = Some props
    ∧ network.Description props = None
    ∧ flattenNetworkSecurityRule rule
      = Ok (VMap (delete "description" emptyDescriptionRule))
    ∧ delete "description" emptyDescriptionRule ≠ emptyDescriptionRule.
Proof.
  apply (round_trip_drops_empty_description emptyDescriptionRule).
  - split; [|split; eexists; reflexivity].
    intros k Hk. unfold securityRuleStringFields in Hk.
    repeat (apply elem_of_cons in Hk as [->|Hk]; [eexists; reflexivity|]).
    by apply elem_of_nil in Hk.
  - reflexivity.
  - intros k Hk. unfold emptyDescriptionRule, mkRule in Hk.
    cbn [list_to_map foldr] in Hk.
    unfold securityRuleFields, securityRuleStringFields.
    repeat (rewrite lookup_insert in Hk;
            destruct (decide (_ = k)) as [<-|?];
            [by repeat constructor|]).
    rewrite lookup_empty in Hk. by destruct Hk.
  - intros z Hz. vm_compute in Hz. injection Hz as <-. lia.
Defined.

(** X8: the check that the schema puts on "priority" is what makes the
    round trip safe: it accepts exactly the ints from 100 to 4096, so for
    every list of complete rule configurations whose priorities pass it,
    [flattenNetworkSecurityRules] after [expandAzureRmSecurityRules] gives
    the same list back. *)
Theorem validated_rules_round_trip
  (validateStringLength : Z → schema.SchemaValidateFunc)
  (validateNetworkSecurityRuleProtocol : schema.SchemaValidateFunc)
  (ignoreCaseStateFunc : schema.SchemaStateFunc)
  (d : ResourceData) (rules : list (gmap string value)) :
  let rule_schema :=
    securityRuleSchema validateStringLength
      validateNetworkSecurityRuleProtocol ignoreCaseStateFunc in
  ∃ priority,
    rule_schema !! "priority" = Some priority
    ∧ (∀ m, priority_validated priority m
            ↔ ∃ z, m !! "priority" = Some (VInt z) ∧ (100 ≤ z ≤ 4096)%Z)
    ∧ (Get d "security_rule" = Some (VList (VMap <$> rules)) →
       Forall complete_rule rules →
       Forall (priority_validated priority) rules →
       ∃ sdkRules,
         expandAzureRmSecurityRules d = Ok (sdkRules, None)
         ∧ flattenNetworkSecurityRules (Some sdkRules)
           = Ok (VMap <$> rules)).
Proof.
  intros rule_schema. eexists. split; [reflexivity|].
  assert (∀ m, priority_validated
                 {| schema.Type_ := schema.TypeInt; schema.Required := true;
                    schema.Optional := false; schema.Computed := false;
                    schema.ForceNew := false; schema.Default := None;
                    schema.MaxItems := 0;
                    schema.ValidateFunc :=
                      Some (validation.IntBetween 100 4096);
                    schema.DiffSuppressFunc := None;
                    schema.StateFunc := None; schema.Elem := None |} m
               ↔ ∃ z, m !! "priority" = Some (VInt z) ∧ (100 ≤ z ≤ 4096)%Z)
    as Hvalid.
  { intros m. unfold priority_validated. simpl. split.
    - intros (g & v & [= <-] & Hv & Herr).
      unfold validation.IntBetween in Herr.
      destruct v as [| |z| |]; try done. exists z. split; [done|].
      case_bool_decide; [done|lia].
    - intros (z & Hz & Hrange). eexists _, _.
      split; [reflexivity|]. split; [exact Hz|].
      unfold validation.IntBetween. case_bool_decide; [lia|done]. }
  split; [exact Hvalid|].
  intros Hget Hcomplete Hprio.
  destruct (flatten_expand_rules rules Hcomplete) as (sdk & He & Hf).
  { eapply Forall_impl; [exact Hprio|]. intros m Hm z Hz.
    apply Hvalid in Hm as (z' & Hz' & Hrange).
    rewrite Hz in Hz'. injection Hz' as <-. lia. }
  exists sdk. unfold expandAzureRmSecurityRules. rewrite Hget. simpl.
  rewrite He. done.
Qed.

Lemma validated_rules_round_trip_witness :
  let rules := [sampleRule 100; sampleRule 4096] in
  ∃ sdkRules,
    expandAzureRmSecurityRules (sampleData rules) = Ok (sdkRules, None)
    ∧ flattenNetworkSecurityRules (Some sdkRules) = Ok (VMap <$> rules).
Proof.
  intros rules.
  destruct (validated_rules_round_trip
              (λ _ _ _, ([], [])) (λ _ _, ([], [])) (λ _, "")
              (sampleData rules) rules) as (priority & _ & Hvalid & Hround).
  apply Hround.
  - reflexivity.
  - do 2 (constructor; [by apply mkRule_complete|]). constructor.
  - do 2 (constructor;
          [apply Hvalid; eexists; split; [reflexivity|lia]|]).
    constructor.
Defined.

(** ** Handlers and a resource ID that does not parse *)

(** X9: when the resource ID does not parse, the Read and Delete handlers
    of both resources return the parse error as it is, make no client call,
    take no lock and leave the resource data alone. *)
Theorem unparsable_id_stops_read_and_delete {W : Type}
  (parseAzureResourceID : string → ResourceID + error)
  (azureRMNormalizeLocation : string → string)
  (flattenAndSetTags : ResourceData → Tags → ResourceData)
  (meta : ArmClient W) (d : ResourceData) (w : W) (err : error) :
  parseAzureResourceID (rd_id d) = inr err →
  let stopped := (Ok (Some err), {| hs_d := d; hs_w := w; hs_log := [] |}) in
  run (resourceArmNetworkSecurityGroupRead parseAzureResourceID
         azureRMNormalizeLocation flattenAndSetTags meta) d w = stopped
  ∧ run (resourceArmNetworkSecurityGroupDelete parseAzureResourceID meta)
      d w = stopped
  ∧ run (resourceArmAutomationAccountRead parseAzureResourceID
           azureRMNormalizeLocation flattenAndSetTags meta) d w = stopped
  ∧ run (resourceArmAutomationAccountDelete parseAzureResourceID meta)
      d w = stopped.
Proof.
  intros Hparse stopped.
  unfold run, resourceArmNetworkSecurityGroupRead,
    resourceArmNetworkSecurityGroupDelete, resourceArmAutomationAccountRead,
    resourceArmAutomationAccountDelete.
  rewrite !bind_read_d. cbn [hs_d]. rewrite Hparse. done.
Qed.

Lemma unparsable_id_stops_read_and_delete_witness :
  run (resourceArmNetworkSecurityGroupDelete Script.parseAzureResourceID
         Script.creating) (sampleData []) 0%nat
  = (Ok (Some (ExternalError "Cannot parse Azure Id")),
     {| hs_d := sampleData []; hs_w := 0%nat; hs_log := [] |}).
Proof.
  apply (unparsable_id_stops_read_and_delete Script.parseAzureResourceID
           Script.azureRMNormalizeLocation Script.flattenAndSetTags
           Script.creating (sampleData []) 0%nat
           (ExternalError "Cannot parse Azure Id") eq_refl).
Defined.

(** ** Creating a network security group: what can go wrong early *)

(** X10: when the configuration cannot be read (name, location or
    resource_group_name is not a string, tags is not a map, or the rule
    list does not expand), [resourceArmNetworkSecurityGroupCreate] panics
    before it has taken the lock or called the client, and the resource
    data and the remote state are as they were. *)
Theorem nsg_create_unreadable_config {W : Type}
  (parseAzureResourceID : string → ResourceID + error)
  (azureRMNormalizeLocation : string → string)
  (expandTags : gmap string value → result Tags)
  (flattenAndSetTags : ResourceData → Tags → ResourceData)
  (polls : nat) (meta : ArmClient W) (d : ResourceData) (w : W) :
  assert_string (Get d "name") = Panic
  ∨ assert_string (Get d "location") = Panic
  ∨ assert_string (Get d "resource_group_name") = Panic
  ∨ assert_map (Get d "tags") = Panic
  ∨ expandAzureRmSecurityRules d = Panic →
  run (resourceArmNetworkSecurityGroupCreate parseAzureResourceID
         azureRMNormalizeLocation expandTags flattenAndSetTags polls meta)
    d w
  = (Panic, {| hs_d := d; hs_w := w; hs_log := [] |}).
Proof.
  intros Hbad.
  unfold run, resourceArmNetworkSecurityGroupCreate, bind, get_string,
    get_map, read_d, lift. simpl.
  destruct (assert_string (Get d "name")); [|done].
  destruct (assert_string (Get d "location")); [|done].
  destruct (assert_string (Get d "resource_group_name")); [|done].
  destruct (assert_map (Get d "tags")); [|done].
  destruct (expandAzureRmSecurityRules d); [|done].
  by destruct Hbad as [?|[?|[?|[?|?]]]].
Qed.

Lemma nsg_create_unreadable_config_witness :
  run (Script.nsgCreate Script.creating)
    (Set_ "security_rule" (VList [VMap ∅]) (sampleData [])) 0%nat
  = (Panic,
     {| hs_d := Set_ "security_rule" (VList [VMap ∅]) (sampleData []);
        hs_w := 0%nat; hs_log := [] |}).
Proof.
  apply (nsg_create_unreadable_config Script.parseAzureResourceID
           Script.azureRMNormalizeLocation Script.expandTags
           Script.flattenAndSetTags 3 Script.creating).
  do 4 right. vm_compute. reflexivity.
Defined.

(** X11: [resourceArmNetworkSecurityGroupCreate] gives up before any
    polling when CreateOrUpdate fails (its error is returned as it is, and
    no Get is made), when the read-back Get fails (its error is returned as
    it is), or when the read-back has a nil ID (a "Cannot read Virtual
    Network" error). In all three cases the resource data is untouched, so
    no ID is set, and the lock taken at the start has been released. *)
Theorem nsg_create_early_failure {W : Type}
  (parseAzureResourceID : string → ResourceID + error)
  (azureRMNormalizeLocation : string → string)
  (expandTags : gmap string value → result Tags)
  (flattenAndSetTags : ResourceData → Tags → ResourceData)
  (polls : nat) (meta : ArmClient W) (d : ResourceData) (w : W)
  (name location resGroup : string) (tags : gmap string value)
  (tags' : Tags) (sgRules : list network.SecurityRule) :
  Get d "name" = Some (VString name) →
  Get d "location" = Some (VString location) →
  Get d "resource_group_name" = Some (VString resGroup) →
  Get d "tags" = Some (VMap tags) →
  expandAzureRmSecurityRules d = Ok (sgRules, None) →
  expandTags tags = Ok tags' →
  let sg :=
    {| network.Response := {| autorest.StatusCode := None |};
       network.ID := None;
       network.Name := Some name;
       network.Location := Some location;
       network.Properties :=
         Some {| network.SecurityRules := Some sgRules;
                 network.ProvisioningState := None |};
       network.Tags_ := tags' |} in
  let rt := "azurerm_network_security_group" in
  let '(err1, w1) :=
    sg_CreateOrUpdate (secGroupClient meta) resGroup name sg w in
  let '(read, err2, w2) := sg_Get (secGroupClient meta) resGroup name w1 in
  let ev1 := EvSecGroupCreateOrUpdate resGroup name sg err1 in
  let ev2 := EvSecGroupGet resGroup name read err2 in
  let '(r, st) :=
    run (resourceArmNetworkSecurityGroupCreate parseAzureResourceID
           azureRMNormalizeLocation expandTags flattenAndSetTags polls meta)
      d w in
  match err1, err2, network.ID read with
  | Some e, _, _ =>
      r = Ok (Some e) ∧ hs_d st = d ∧ hs_w st = w1
      ∧ hs_log st = [EvLock name rt; ev1; EvUnlock name rt]
  | None, Some e, _ =>
      r = Ok (Some e) ∧ hs_d st = d ∧ hs_w st = w2
      ∧ hs_log st = [EvLock name rt; ev1; ev2; EvUnlock name rt]
  | None, None, None =>
      r = Ok (Some (Errorf "Cannot read Virtual Network %q (resource group %q) ID"
                      [ArgString name; ArgString resGroup]))
      ∧ hs_d st = d ∧ hs_w st = w2
      ∧ hs_log st = [EvLock name rt; ev1; ev2; EvUnlock name rt]
  | None, None, Some _ =>
      hs_log st = [] ∨ last (hs_log st) = Some (EvUnlock name rt)
  end.
Proof.
  intros Hname Hloc Hrg Htags Hrules Hexp sg rt.
  destruct (sg_CreateOrUpdate _ _ _ _ _) as [err1 w1] eqn:Hcu.
  destruct (sg_Get _ _ _ _) as [[read err2] w2] eqn:Hget.
  pose proof (nsg_create_trace parseAzureResourceID azureRMNormalizeLocation
                expandTags flattenAndSetTags polls meta d w) as Htrace.
  cbv zeta in Htrace. revert Htrace.
  unfold run, resourceArmNetworkSecurityGroupCreate.
  erewrite bind_get_string by exact Hname.
  erewrite bind_get_string by exact Hloc.
  erewrite bind_get_string by exact Hrg.
  erewrite bind_get_map by exact Htags.
  rewrite bind_read_d.
  erewrite bind_lift_Ok by exact Hrules.
  unfold locked, emit, nsgCreateLocked, secGroupGet.
  cbn [hs_d hs_w hs_log app].
  erewrite bind_lift_Ok by exact Hexp. fold sg.
  erewrite bind_call by exact Hcu. cbn [hs_d hs_w hs_log app].
  destruct err1 as [e1|]; [by simpl|].
  erewrite bind_call by exact Hget. cbn [hs_d hs_w hs_log app fst snd].
  destruct err2 as [e2|]; [by simpl|].
  destruct (network.ID read) as [id|]; [|by simpl].
  match goal with
  | |- context [bind ?m ?k ?st0] => destruct (bind m k st0) as [r st]
  end.
  cbn [snd hs_log]. intros [Hnil|(n & body & Hn & Hlog & _)]; [by left|].
  right. rewrite Hname in Hn. injection Hn as <-.
  rewrite Hlog. change (EvLock name networkSecurityGroupResourceName :: body
                          ++ [EvUnlock name networkSecurityGroupResourceName])
    with ((EvLock name networkSecurityGroupResourceName :: body)
            ++ [EvUnlock name rt]).
  by rewrite last_snoc.
Qed.

Lemma nsg_create_early_failure_witness :
  let failing :=
    Script.meta (Script.secGroups (Some Script.serverError) [] None)
      Script.noAccounts in
  let '(r, st) := run (Script.nsgCreate failing) (sampleData []) 0%nat in
  r = Ok (Some Script.serverError) ∧ hs_d st = sampleData []
  ∧ length (hs_log st) = 3%nat.
Proof.
  intros failing.
  unshelve epose proof
    (nsg_create_early_failure Script.parseAzureResourceID
       Script.azureRMNormalizeLocation Script.expandTags
       Script.flattenAndSetTags 3 failing (sampleData []) 0%nat
       "nsg1" "westeurope" "rg1" ∅ None [] _ _ _ _ _ _) as H.
  1-6: vm_compute; reflexivity.
  vm_cast_in H. vm_compute. destruct H as (Hr & Hd & _ & _).
  split; [exact Hr|]. split; [exact Hd|reflexivity].
Defined.

(** ** Read after a successful Get *)

(** X12: when the ID parses and Get succeeds,
    [resourceArmNetworkSecurityGroupRead] makes that one client call and
    nothing else outside. It panics exactly when the response has a nil
    location or a rule list that does not flatten (a rule with a nil name,
    or with properties and a nil priority). Otherwise it returns nil, and
    the resource data has been handed to [flattenAndSetTags] with the same
    ID, with name, resource_group_name and location (normalized) set from
    the response, with security_rule set to the flattened rules when the
    response has properties and left alone when it has none, and with every
    other attribute as before. *)
Theorem nsg_read_found {W : Type}
  (parseAzureResourceID : string → ResourceID + error)
  (azureRMNormalizeLocation : string → string)
  (flattenAndSetTags : ResourceData → Tags → ResourceData)
  (meta : ArmClient W) (d : ResourceData) (w w' : W) (id : ResourceID)
  (resp : network.SecurityGroup) :
  parseAzureResourceID (rd_id d) = inl id →
  let resGroup := ResourceGroup id in
  let name := path_lookup (Path id) "networkSecurityGroups" in
  sg_Get (secGroupClient meta) resGroup name w = (resp, None, w') →
  let '(r, st) :=
    run (resourceArmNetworkSecurityGroupRead parseAzureResourceID
           azureRMNormalizeLocation flattenAndSetTags meta) d w in
  hs_log st = [EvSecGroupGet resGroup name resp None]
  ∧ hs_w st = w'
  ∧ (r = Panic ↔
     network.Location resp = None
     ∨ ∃ props rules,
         network.Properties resp = Some props
         ∧ network.SecurityRules props = Some rules
         ∧ ¬ Forall rule_flattens rules)
  ∧ (r ≠ Panic →
     r = Ok None
     ∧ ∃ location d',
         network.Location resp = Some location
         ∧ hs_d st = flattenAndSetTags d' (network.Tags_ resp)
         ∧ rd_id d' = rd_id d
         ∧ Get d' "name" = Some (string_ptr_value (network.Name resp))
         ∧ Get d' "resource_group_name" = Some (VString resGroup)
         ∧ Get d' "location"
           = Some (VString (azureRMNormalizeLocation location))
         ∧ match network.Properties resp with
           | Some props =>
               ∃ l, flattenNetworkSecurityRules (network.SecurityRules props)
                    = Ok l
                    ∧ Get d' "security_rule" = Some (VList l)
           | None => Get d' "security_rule" = Get d "security_rule"
           end
         ∧ ∀ k, k ∉ ["name"; "resource_group_name"; "location";
                     "security_rule"] →
                Get d' k = Get d k).
Proof.
  intros Hparse resGroup name Hget.
  unfold run, resourceArmNetworkSecurityGroupRead, secGroupGet.
  rewrite bind_read_d. cbn [hs_d]. rewrite Hparse. fold resGroup name.
  erewrite bind_call by exact Hget. cbn [hs_d hs_w hs_log app fst snd].
  rewrite !bind_modify_d. cbn [hs_d hs_w hs_log].
  assert (∀ k, k ∉ ["name"; "resource_group_name"; "location";
                    "security_rule"] →
               k ≠ "name" ∧ k ≠ "resource_group_name" ∧ k ≠ "location"
               ∧ k ≠ "security_rule") as Hother.
  { intros k Hk. repeat split; intros ->; apply Hk; by repeat constructor. }
  destruct (network.Location resp) as [location|]; cbn [deref].
  2:{ rewrite bind_lift_Panic'. simpl.
      repeat (split; [done|]). split; [|done]. split; [by left|done]. }
  erewrite bind_lift_Ok by reflexivity. rewrite bind_modify_d.
  cbn [hs_d hs_w hs_log].
  destruct (network.Properties resp) as [props|].
  - destruct (flattenNetworkSecurityRules (network.SecurityRules props))
      as [l|] eqn:Hflat.
    + cbn [bind lift modify_d ret hs_d hs_w hs_log].
      repeat (split; [done|]). split.
      * split; [done|]. intros [?|(props' & rules & [= <-] & Hrules & Hbad)];
          [done|]. rewrite Hrules in Hflat.
        exfalso. apply Hbad. apply flattenRulesLoop_returns. eauto.
      * intros _. split; [done|]. eexists location, _.
        split; [done|]. split; [reflexivity|]. split; [done|].
        unfold Get, Set_. cbn [rd_attrs].
        split; [by simplify_map_eq|]. split; [by simplify_map_eq|].
        split; [by simplify_map_eq|]. split; [exists l; by simplify_map_eq|].
        intros k Hk. destruct (Hother k Hk) as (?&?&?&?).
        by simplify_map_eq.
    + cbn [bind lift modify_d ret hs_d hs_w hs_log].
      repeat (split; [done|]). split; [|done]. split; [|done].
      intros _. right.
      destruct (network.SecurityRules props) as [rules|] eqn:Hrules;
        [|done].
      exists props, rules. repeat (split; [done|]).
      intros Hall. apply flattenRulesLoop_returns in Hall as [? Hok].
      simpl in Hflat. congruence.
  - cbn [bind lift modify_d ret hs_d hs_w hs_log].
    repeat (split; [done|]). split.
    + split; [done|]. by intros [?|(?&?&?&?)].
    + intros _. split; [done|]. eexists location, _.
      split; [done|]. split; [reflexivity|]. split; [done|].
      unfold Get, Set_. cbn [rd_attrs].
      split; [by simplify_map_eq|]. split; [by simplify_map_eq|].
      split; [by simplify_map_eq|]. split; [by simplify_map_eq|].
      intros k Hk. destruct (Hother k Hk) as (?&?&?&?).
      by simplify_map_eq.
Qed.

Lemma nsg_read_found_witness :
  let '(r, st) :=
    run (resourceArmNetworkSecurityGroupRead Script.parseAzureResourceID
           Script.azureRMNormalizeLocation Script.flattenAndSetTags
           Script.creating) (Script.stored Script.nsgId) 0%nat in
  hs_log st = [EvSecGroupGet "rg1" "nsg1" (Script.sgOk "Updating").1 None]
  ∧ hs_w st = 1%nat.
Proof.
  unshelve epose proof
    (nsg_read_found Script.parseAzureResourceID
       Script.azureRMNormalizeLocation Script.flattenAndSetTags
       Script.creating (Script.stored Script.nsgId) 0%nat 1%nat
       {| ResourceGroup := "rg1";
          Path := list_to_map [("networkSecurityGroups", "nsg1");
                               ("automationAccounts", "acc1")] |}
       (Script.sgOk "Updating").1 _ _) as H.
  1-2: vm_compute; reflexivity.
  cbv zeta in H.
  destruct (run _ _ _) as [r st]. destruct H as (Hlog & Hw & _).
  split; [exact Hlog|exact Hw].
Defined.

(** X13: when the ID parses and Get succeeds,
    [resourceArmAutomationAccountRead] makes that one client call and
    nothing else outside. It panics exactly when the response has a nil
    location, nil properties or a nil sku. Otherwise it returns nil, and the
    resource data has been handed to [flattenAndSetTags] with the same ID,
    with name, location (normalized) and resource_group_name set from the
    response, with sku set to a one-element list holding the sku's name, and
    with every other attribute as before. *)
Theorem account_read_found {W : Type}
  (parseAzureResourceID : string → ResourceID + error)
  (azureRMNormalizeLocation : string → string)
  (flattenAndSetTags : ResourceData → Tags → ResourceData)
  (meta : ArmClient W) (d : ResourceData) (w w' : W) (id : ResourceID)
  (resp : automation.Account) :
  parseAzureResourceID (rd_id d) = inl id →
  let resGroup := ResourceGroup id in
  let name := path_lookup (Path id) "automationAccounts" in
  acc_Get (automationAccountClient meta) resGroup name w = (resp, None, w') →
  let '(r, st) :=
    run (resourceArmAutomationAccountRead parseAzureResourceID
           azureRMNormalizeLocation flattenAndSetTags meta) d w in
  hs_log st = [EvAccountGet resGroup name resp None]
  ∧ hs_w st = w'
  ∧ (r = Panic ↔
     automation.Location resp = None
     ∨ automation.Properties resp = None
     ∨ ∃ props, automation.Properties resp = Some props
                ∧ automation.acc_Sku props = None)
  ∧ (r ≠ Panic →
     r = Ok None
     ∧ ∃ location props sku d',
         automation.Location resp = Some location
         ∧ automation.Properties resp = Some props
         ∧ automation.acc_Sku props = Some sku
         ∧ hs_d st = flattenAndSetTags d' (automation.Tags_ resp)
         ∧ rd_id d' = rd_id d
         ∧ Get d' "name" = Some (string_ptr_value (automation.Name resp))
         ∧ Get d' "location"
           = Some (VString (azureRMNormalizeLocation location))
         ∧ Get d' "resource_group_name" = Some (VString resGroup)
         ∧ Get d' "sku"
           = Some (VList [VMap {["name" :=
                                   VString (automation.sku_Name sku)]}])
         ∧ ∀ k, k ∉ ["name"; "location"; "resource_group_name"; "sku"] →
                Get d' k = Get d k).
Proof.
  intros Hparse resGroup name Hget.
  unfold run, resourceArmAutomationAccountRead, accountGet, flattenAndSetSku.
  rewrite bind_read_d. cbn [hs_d]. rewrite Hparse. fold resGroup name.
  erewrite bind_call by exact Hget. cbn [hs_d hs_w hs_log app fst snd].
  assert (∀ k, k ∉ ["name"; "location"; "resource_group_name"; "sku"] →
               k ≠ "name" ∧ k ≠ "location" ∧ k ≠ "resource_group_name"
               ∧ k ≠ "sku") as Hother.
  { intros k Hk. repeat split; intros ->; apply Hk; by repeat constructor. }
  destruct (automation.Location resp) as [location|];
    [|cbn [bind lift deref modify_d ret hs_d hs_w hs_log];
      repeat (split; [done|]); split; [|done]; split; [by left|done]].
  destruct (automation.Properties resp) as [props|];
    [|cbn [bind lift deref modify_d ret hs_d hs_w hs_log];
      repeat (split; [done|]); split; [|done];
      split; [by right; left|done]].
  destruct (automation.acc_Sku props) as [sku|] eqn:Hsku;
    cbn [bind lift deref modify_d ret hs_d hs_w hs_log]; rewrite Hsku;
    cbn [bind lift deref modify_d ret hs_d hs_w hs_log].
  - repeat (split; [done|]). split.
    + split; [done|]. intros [?|[?|(? & [= <-] & ?)]]; congruence.
    + intros _. split; [done|]. eexists location, props, sku, _.
      do 3 (split; [done|]). split; [reflexivity|]. split; [done|].
      unfold Get, Set_. cbn [rd_attrs].
      split; [by simplify_map_eq|]. split; [by simplify_map_eq|].
      split; [by simplify_map_eq|]. split; [by simplify_map_eq|].
      intros k Hk. destruct (Hother k Hk) as (?&?&?&?).
      by simplify_map_eq.
  - repeat (split; [done|]). split; [|done]. split; [|done].
    intros _. right. right. eauto.
Qed.

Lemma account_read_found_witness :
  let '(r, st) :=
    run (resourceArmAutomationAccountRead Script.parseAzureResourceID
           Script.azureRMNormalizeLocation Script.flattenAndSetTags
           Script.accountThere) (Script.stored Script.accId) 0%nat in
  hs_log st = [EvAccountGet "rg1" "acc1" Script.accOk.1 None]
  ∧ hs_w st = 1%nat.
Proof.
  unshelve epose proof
    (account_read_found Script.parseAzureResourceID
       Script.azureRMNormalizeLocation Script.flattenAndSetTags
       Script.accountThere (Script.stored Script.accId) 0%nat 1%nat
       {| ResourceGroup := "rg1";
          Path := list_to_map [("networkSecurityGroups", "nsg1");
                               ("automationAccounts", "acc1")] |}
       Script.accOk.1 _ _) as H.
  1-2: vm_compute; reflexivity.
  cbv zeta in H.
  destruct (run _ _ _) as [r st]. destruct H as (Hlog & Hw & _).
  split; [exact Hlog|exact Hw].
Defined.

(** ** The sku of an automation account *)

(** X14: what [flattenAndSetSku] stores, [expandSku] reads back as the
    same sku, and storing it touches neither the resource ID nor the
    outside; a nil sku makes [flattenAndSetSku] panic. [expandSku] panics on
    an empty sku list and looks at the first element only. *)
Theorem sku_round_trip {W : Type} (st : HState W) (sku : automation.Sku)
  (d : ResourceData) (v : value) (rest : list value) :
  (let '(r, st') := flattenAndSetSku (Some sku) st in
   r = Ok tt
   ∧ expandSku (hs_d st') = Ok sku
   ∧ rd_id (hs_d st') = rd_id (hs_d st)
   ∧ hs_w st' = hs_w st ∧ hs_log st' = hs_log st)
  ∧ (flattenAndSetSku None st).1 = Panic
  ∧ expandSku (Set_ "sku" (VList []) d) = Panic
  ∧ expandSku (Set_ "sku" (VList (v :: rest)) d)
    = expandSku (Set_ "sku" (VList [v]) d).
Proof.
  unfold flattenAndSetSku, expandSku, Get, Set_, bind, lift, modify_d.
  simpl. rewrite !lookup_insert_eq. simpl. rewrite lookup_insert_eq.
  by destruct sku.
Qed.

(** X15: when the configuration cannot be read (name, location or
    resource_group_name is not a string, tags is not a map, the sku does
    not expand or the tags do not), [resourceArmAutomationAccountCreateUpdate]
    panics before it has called the client, and the resource data and the
    remote state are as they were. *)
Theorem account_create_unreadable_config {W : Type}
  (parseAzureResourceID : string → ResourceID + error)
  (azureRMNormalizeLocation : string → string)
  (expandTags : gmap string value → result Tags)
  (flattenAndSetTags : ResourceData → Tags → ResourceData)
  (meta : ArmClient W) (d : ResourceData) (w : W) :
  assert_string (Get d "name") = Panic
  ∨ assert_string (Get d "location") = Panic
  ∨ assert_string (Get d "resource_group_name") = Panic
  ∨ assert_map (Get d "tags") = Panic
  ∨ expandSku d = Panic
  ∨ (∃ tags, Get d "tags" = Some (VMap tags) ∧ expandTags tags = Panic) →
  run (resourceArmAutomationAccountCreateUpdate parseAzureResourceID
         azureRMNormalizeLocation expandTags flattenAndSetTags meta) d w
  = (Panic, {| hs_d := d; hs_w := w; hs_log := [] |}).
Proof.
  intros Hbad.
  unfold run, resourceArmAutomationAccountCreateUpdate, bind, get_string,
    get_map, read_d, lift. simpl.
  destruct (assert_string (Get d "name")); [|done].
  destruct (assert_string (Get d "location")); [|done].
  destruct (assert_string (Get d "resource_group_name")); [|done].
  destruct (Get d "tags") as [[| | | |tags]|] eqn:Htags; try done.
  simpl. destruct (expandSku d); [|done].
  destruct (expandTags tags) eqn:Hexp; [|done].
  destruct Hbad as [?|[?|[?|[?|[?|(tags' & [= <-] & ?)]]]]];
    simpl in *; congruence.
Qed.

Lemma account_create_unreadable_config_witness :
  run (Script.accountCreate Script.accountThere)
    (Set_ "sku" (VList []) Script.accountConfig) 0%nat
  = (Panic, {| hs_d := Set_ "sku" (VList []) Script.accountConfig;
               hs_w := 0%nat; hs_log := [] |}).
Proof.
  apply (account_create_unreadable_config Script.parseAzureResourceID
           Script.azureRMNormalizeLocation Script.expandTags
           Script.flattenAndSetTags Script.accountThere).
  do 4 right. left. vm_compute. reflexivity.
Defined.

(** ** How many client calls a create makes *)

Section Spends.
Context {W : Type}.
Implicit Types p : event → bool.

Lemma spends_silent {A} p n (m : M W A) :
  emits (λ _, False) m → spends p n m.
Proof.
  intros Hm st r st' Hst. destruct (Hm _ _ _ Hst) as (evs & Hlog & Hevs).
  destruct evs as [|ev evs]; [|by inversion Hevs].
  exists []. split; [done|simpl; lia].
Qed.

Lemma spends_ret {A} p n (a : A) : spends p n (@ret W A a).
Proof. apply spends_silent, emits_ret. Qed.

Lemma spends_lift {A} p n (r : result A) : spends p n (@lift W A r).
Proof. apply spends_silent, emits_lift. Qed.

Lemma spends_read_d p n : spends p n (@read_d W).
Proof. apply spends_silent, emits_read_d. Qed.

Lemma spends_modify_d p n f : spends p n (@modify_d W f).
Proof. apply spends_silent, emits_modify_d. Qed.

Lemma spends_emit p n ev : p ev = false → spends p n (@emit W ev).
Proof.
  intros Hp st r st' [= <- <-]. exists [ev]. split; [done|].
  simpl. rewrite Hp. lia.
Qed.

Lemma spends_call {A} p n (f : W → A * W) ev :
  (1 ≤ n)%nat → spends p n (call f ev).
Proof.
  intros Hn st r st'. unfold call. destruct (f (hs_w st)) as [a w'].
  intros [= <- <-]. exists [ev a]. split; [done|].
  simpl. destruct (p (ev a)); lia.
Qed.

Lemma spends_bind {A B} p n1 n (m : M W A) (k : A → M W B) :
  spends p n1 m → (n1 ≤ n)%nat → (∀ a, spends p (n - n1) (k a)) →
  spends p n (bind m k).
Proof.
  intros Hm Hn Hk st r st'. unfold bind.
  destruct (m st) as [[a|] st1] eqn:Hst1.
  - intros Hst'. destruct (Hm _ _ _ Hst1) as (evs1 & H1 & Hc1).
    destruct (Hk a _ _ _ Hst') as (evs2 & H2 & Hc2).
    exists (evs1 ++ evs2). split; [by rewrite H2, H1, app_assoc|].
    rewrite count_events_app. lia.
  - intros [= <- <-]. destruct (Hm _ _ _ Hst1) as (evs1 & H1 & Hc1).
    exists evs1. split; [done|lia].
Qed.

Lemma spends_locked {A} p n name rt (body : M W A) :
  p (EvLock name rt) = false → p (EvUnlock name rt) = false →
  spends p n body → spends p n (locked name rt body).
Proof.
  intros Hl Hu Hbody st r st'. unfold locked. simpl.
  match goal with
  | |- context [body ?st1] => destruct (body st1) as [r2 st2] eqn:Hst2
  end.
  intros [= <- <-]. destruct (Hbody _ _ _ Hst2) as (evs & H2 & Hc).
  simpl in *. exists ([EvLock name rt] ++ evs ++ [EvUnlock name rt]).
  split; [rewrite H2; by rewrite <- !app_assoc|].
  rewrite !count_events_app. simpl. rewrite Hl, Hu. lia.
Qed.
End Spends.

Ltac spends_step :=
  match goal with
  | |- spends _ _ (bind (call _ _) _) =>
      apply (spends_bind _ 1); [apply spends_call; lia|lia|intros ?]
  | |- spends _ _ (bind (lift _) _) =>
      apply (spends_bind _ 0); [apply spends_lift|lia|intros ?]
  | |- spends _ _ (bind (modify_d _) _) =>
      apply (spends_bind _ 0); [apply spends_modify_d|lia|intros ?]
  | |- spends _ _ (bind read_d _) =>
      apply (spends_bind _ 0); [apply spends_read_d|lia|intros ?]
  | |- spends _ _ (bind (get_string _) _) =>
      apply (spends_bind _ 0);
      [apply spends_silent; unfold get_string; solve_emits|lia|intros ?]
  | |- spends _ _ (bind (get_map _) _) =>
      apply (spends_bind _ 0);
      [apply spends_silent; unfold get_map; solve_emits|lia|intros ?]
  | |- spends _ _ (bind (match ?x with _ => _ end) _) => destruct x
  | |- spends _ _ (bind _ _) =>
      apply (spends_bind _ 0); [solve [repeat spends_step]|lia|intros ?]
  | |- spends _ _ (ret _) => apply spends_ret
  | |- spends _ _ (lift _) => apply spends_lift
  | |- spends _ _ (modify_d _) => apply spends_modify_d
  | |- spends _ _ (call _ _) => apply spends_call; lia
  | |- spends _ _ (match ?x with _ => _ end) => destruct x
  end.

Ltac solve_spends := repeat spends_step.

Section CreateCalls.
Context {W : Type}.
Variable parseAzureResourceID : string → ResourceID + error.
Variable azureRMNormalizeLocation : string → string.
Variable expandTags : gmap string value → result Tags.
Variable flattenAndSetTags : ResourceData → Tags → ResourceData.
Variable meta : ArmClient W.
Implicit Types p : event → bool.

Lemma spends_refresh p rg name :
  spends p 1 (networkSecurityGroupStateRefreshFunc meta rg name).
Proof.
  unfold networkSecurityGroupStateRefreshFunc, secGroupGet. solve_spends.
Qed.

Lemma spends_waitLoop {R} p n (conf : resource.StateChangeConf W R) tick :
  (∀ s, p (EvRefresh s) = false) →
  spends p 1 (resource.Refresh conf) →
  spends p n (resource.waitLoop n conf tick).
Proof.
  intros Hp Href. revert tick. induction n as [|n IH]; intros tick; simpl.
  - apply spends_ret.
  - apply (spends_bind _ 1); [done|lia|]. intros [[res st] err].
    replace (S n - 1)%nat with n by lia.
    destruct err; [apply spends_ret|].
    destruct res; [|case_bool_decide; [apply spends_ret|apply IH]].
    apply (spends_bind _ 0); [by apply spends_emit|lia|]. intros _.
    replace (n - 0)%nat with n by lia.
    repeat case_bool_decide; solve [apply spends_ret | apply IH].
Qed.

Lemma spends_nsg_read p :
  spends p 1 (resourceArmNetworkSecurityGroupRead parseAzureResourceID
                azureRMNormalizeLocation flattenAndSetTags meta).
Proof.
  unfold resourceArmNetworkSecurityGroupRead, secGroupGet. solve_spends.
Qed.

Lemma emits_waitLoop_any {R} (P : event → Prop) n
  (conf : resource.StateChangeConf W R) tick :
  (∀ s, P (EvRefresh s)) →
  emits P (resource.Refresh conf) →
  emits P (resource.waitLoop n conf tick).
Proof.
  intros HP Href. revert tick. induction n as [|n IH]; intros tick; simpl.
  - solve_emits.
  - apply emits_bind; [done|]. intros [[res st] err].
    destruct err; [solve_emits|].
    destruct res; [|case_bool_decide; [solve_emits|apply IH]].
    apply emits_bind; [by apply emits_emit|]. intros _.
    repeat case_bool_decide; solve [solve_emits | apply IH].
Qed.
End CreateCalls.

Section CreateBudget.
Context {W : Type}.
Variable parseAzureResourceID : string → ResourceID + error.
Variable azureRMNormalizeLocation : string → string.
Variable expandTags : gmap string value → result Tags.
Variable flattenAndSetTags : ResourceData → Tags → ResourceData.
Variable polls : nat.
Variable meta : ArmClient W.

Lemma spends_free {A} (p : event → bool) n (m : M W A) :
  emits (λ ev, p ev = false) m → spends p n m.
Proof.
  intros Hm st r st' Hst. destruct (Hm _ _ _ Hst) as (evs & Hlog & Hevs).
  exists evs. split; [done|].
  assert (count_events p evs = 0%nat) as ->; [|lia].
  clear Hlog. induction Hevs as [|ev evs Hev _ IH]; [done|].
  simpl. by rewrite Hev, IH.
Qed.

Lemma spends_weaken {A} (p : event → bool) n n' (m : M W A) :
  (n ≤ n')%nat → spends p n m → spends p n' m.
Proof.
  intros Hn Hm st r st' Hst. destruct (Hm _ _ _ Hst) as (evs & Hlog & Hc).
  exists evs. split; [done|lia].
Qed.

(** Everything that happens with the lock held while creating: a common
    shape for the three facts below. *)
Lemma nsg_create_locked_emits (P : event → Prop)
  name location resGroup tags sgRules :
  (∀ rg n sg err, P (EvSecGroupCreateOrUpdate rg n sg err)) →
  (∀ rg n resp err, P (EvSecGroupGet rg n resp err)) →
  (∀ s, P (EvRefresh s)) →
  emits P (nsgCreateLocked parseAzureResourceID azureRMNormalizeLocation
             expandTags flattenAndSetTags polls meta
             name location resGroup tags sgRules).
Proof.
  intros Hcu Hget Href.
  unfold nsgCreateLocked, resourceArmNetworkSecurityGroupRead, secGroupGet.
  solve_emits. apply emits_waitLoop_any; [done|].
  unfold nsgStateConf, networkSecurityGroupStateRefreshFunc, secGroupGet.
  simpl. solve_emits.
Qed.

Lemma nsg_create_locked_calls name location resGroup tags sgRules :
  spends is_client_call (polls + 3)
    (nsgCreateLocked parseAzureResourceID azureRMNormalizeLocation
       expandTags flattenAndSetTags polls meta
       name location resGroup tags sgRules).
Proof.
  unfold nsgCreateLocked, secGroupGet.
  apply (spends_bind _ 0); [apply spends_lift|lia|intros tags'].
  apply (spends_bind _ 1); [apply spends_call; lia|lia|intros err].
  destruct err; [apply spends_ret|].
  apply (spends_bind _ 1); [apply spends_call; lia|lia|intros [read err]].
  destruct err; [apply spends_ret|].
  destruct (network.ID read); [|apply spends_ret].
  apply (spends_bind _ polls);
    [apply spends_waitLoop; [done|apply spends_refresh]|lia|intros werr].
  destruct werr; [apply spends_ret|].
  apply (spends_bind _ 0); [apply spends_modify_d|lia|intros _].
  eapply spends_weaken; [|apply spends_nsg_read]. lia.
Qed.

Lemma nsg_create_locked_writes name location resGroup tags sgRules :
  spends is_secgroup_create_or_update 1
    (nsgCreateLocked parseAzureResourceID azureRMNormalizeLocation
       expandTags flattenAndSetTags polls meta
       name location resGroup tags sgRules).
Proof.
  unfold nsgCreateLocked, secGroupGet.
  apply (spends_bind _ 0); [apply spends_lift|lia|intros tags'].
  apply (spends_bind _ 1); [apply spends_call; lia|lia|intros err].
  apply spends_free.
  unfold resourceArmNetworkSecurityGroupRead, secGroupGet.
  solve_emits. apply emits_waitLoop_any; [done|].
  unfold nsgStateConf, networkSecurityGroupStateRefreshFunc, secGroupGet.
  simpl. solve_emits.
Qed.
End CreateBudget.

(** X16: creating a network security group makes at most [polls + 3]
    client calls, where [polls] is the number of refreshes that fit into
    the timeout: one CreateOrUpdate at most, the read-back, the refreshes
    and the Get of the concluding Read. It calls nothing but CreateOrUpdate
    and Get on the security groups client: never Delete, never the
    automation client. *)
Theorem nsg_create_call_budget {W : Type}
  (parseAzureResourceID : string → ResourceID + error)
  (azureRMNormalizeLocation : string → string)
  (expandTags : gmap string value → result Tags)
  (flattenAndSetTags : ResourceData → Tags → ResourceData)
  (polls : nat) (meta : ArmClient W) (d : ResourceData) (w : W) :
  let log :=
    hs_log (run (resourceArmNetworkSecurityGroupCreate parseAzureResourceID
                   azureRMNormalizeLocation expandTags flattenAndSetTags
                   polls meta) d w).2 in
  (count_events is_client_call log ≤ polls + 3)%nat
  ∧ (count_events is_secgroup_create_or_update log ≤ 1)%nat
  ∧ Forall (λ ev, nsg_create_event ev = true) log.
Proof.
  assert (∀ p n,
            p (EvLock "" "") = false →
            (∀ a b, p (EvLock a b) = p (EvLock "" "")) →
            (∀ a b, p (EvUnlock a b) = p (EvLock "" "")) →
            (∀ name location resGroup tags sgRules,
               spends p n (nsgCreateLocked parseAzureResourceID
                             azureRMNormalizeLocation expandTags
                             flattenAndSetTags polls meta
                             name location resGroup tags sgRules)) →
            spends p n (resourceArmNetworkSecurityGroupCreate
                          parseAzureResourceID azureRMNormalizeLocation
                          expandTags flattenAndSetTags polls meta))
    as Hcreate.
  { intros p n Hp Hl Hu Hbody. unfold resourceArmNetworkSecurityGroupCreate.
    do 6 spends_step. destruct a4 as [sgRules [e|]]; [apply spends_ret|].
    replace (n - 0 - 0 - 0 - 0 - 0 - 0)%nat with n by lia.
    apply spends_locked; [by rewrite Hl|by rewrite Hu|apply Hbody]. }
  intros log. unfold run in log.
  destruct (resourceArmNetworkSecurityGroupCreate _ _ _ _ _ _ _)
    as [r st] eqn:Hrun.
  subst log. cbn [snd]. split; [|split].
  - destruct (Hcreate is_client_call (polls + 3)%nat eq_refl
                (λ _ _, eq_refl) (λ _ _, eq_refl)
                (nsg_create_locked_calls _ _ _ _ _ _) _ _ _ Hrun)
      as (evs & -> & Hc). done.
  - destruct (Hcreate is_secgroup_create_or_update 1%nat eq_refl
                (λ _ _, eq_refl) (λ _ _, eq_refl)
                (nsg_create_locked_writes _ _ _ _ _ _) _ _ _ Hrun)
      as (evs & -> & Hc). done.
  - assert (emits (λ ev, nsg_create_event ev = true)
              (resourceArmNetworkSecurityGroupCreate parseAzureResourceID
                 azureRMNormalizeLocation expandTags flattenAndSetTags
                 polls meta)) as Hemits.
    { unfold resourceArmNetworkSecurityGroupCreate, get_string, get_map.
      solve_emits. intros st0 r0 st0'. unfold locked, emit. simpl.
      match goal with
      | |- context [nsgCreateLocked ?a ?b ?c ?d ?e ?f ?g ?h ?i ?j ?k ?s] =>
          destruct (nsgCreateLocked a b c d e f g h i j k s)
            as [r2 st2] eqn:Hbody
      end.
      intros [= <- <-].
      destruct (nsg_create_locked_emits parseAzureResourceID
                  azureRMNormalizeLocation expandTags flattenAndSetTags
                  polls meta (λ ev, nsg_create_event ev = true)
                  _ _ _ _ _ ltac:(done) ltac:(done) ltac:(done) _ _ _ Hbody)
        as (evs & Hlog & Hevs).
      simpl in *. eexists (_ :: evs ++ [_]). rewrite Hlog.
      split; [by rewrite <- !app_assoc|].
      constructor; [done|]. apply Forall_app. split; [done|].
      by constructor. }
    destruct (Hemits _ _ _ Hrun) as (evs & -> & Hevs). done.
Qed.

(** ** The checks of the container registry acceptance tests *)

Ltac check_cases :=
  repeat split; simpl; try lia; try done;
  try (intros; by simplify_eq);
  try (intros (?&?&?&?&?&?&?&?&?&?&?);
       unfold utils.StatusNotFound in *; simplify_eq; congruence).

(** X17: [testCheckAzureRMContainerRegistryExists] returns nil exactly when
    the named resource is in the state with a primary instance that has a
    resource_group_name, the Get for that resource group and the stored
    name succeeds, and the status code of the response is not 404. It asks
    the client at most once, and not at all when the resource is missing
    from the state or has no resource group. *)
Theorem registry_exists_check {W : Type} (conn : RegistryGet W)
  (name : string) (resources : gmap string terraform.ResourceState)
  (w : W) :
  let '(r, w', calls) :=
    testCheckAzureRMContainerRegistryExists conn name resources w in
  (r = Ok None ↔
   ∃ rs primary resourceGroup resp code,
     resources !! name = Some rs
     ∧ terraform.Primary rs = Some primary
     ∧ terraform.Attributes primary !! "resource_group_name"
       = Some resourceGroup
     ∧ conn resourceGroup
         (path_lookup (terraform.Attributes primary) "name") w
       = (resp, None, w')
     ∧ autorest.StatusCode resp = Some code
     ∧ code ≠ 404)
  ∧ (length calls ≤ 1)%nat
  ∧ (calls = [] → w' = w)
  ∧ (resources !! name = None →
     r = Ok (Some (NotFoundInState name)) ∧ calls = [])
  ∧ (∀ rs primary,
       resources !! name = Some rs →
       terraform.Primary rs = Some primary →
       terraform.Attributes primary !! "resource_group_name" = None →
       r = Ok (Some (NoResourceGroupInState
                       (path_lookup (terraform.Attributes primary) "name")))
       ∧ calls = []).
Proof.
  unfold testCheckAzureRMContainerRegistryExists.
  destruct (resources !! name) as [rs|] eqn:Hrs; [|check_cases].
  destruct (terraform.Primary rs) as [primary|] eqn:Hprimary;
    [|check_cases].
  destruct (terraform.Attributes primary !! "resource_group_name")
    as [rg|] eqn:Hrg; [|check_cases].
  destruct (conn rg _ w) as [[resp err] w'] eqn:Hconn.
  destruct err as [e|]; [check_cases|].
  destruct (autorest.StatusCode resp) as [code|] eqn:Hcode; [|check_cases].
  destruct (decide (code = utils.StatusNotFound)) as [->|Hne];
    [check_cases|].
  split; [|check_cases]. split; [|done].
  intros _. exists rs, primary, rg, resp, code. done.
Qed.

Lemma registry_exists_check_witness :
  testCheckAzureRMContainerRegistryExists (registryAnswers 404)
    "azurerm_container_registry.test" ∅ 0%nat
  = (Ok (Some (NotFoundInState "azurerm_container_registry.test")),
     0%nat, []).
Proof.
  pose proof (registry_exists_check (registryAnswers 404)
                "azurerm_container_registry.test" ∅ 0%nat) as H.
  destruct (testCheckAzureRMContainerRegistryExists _ _ _ _)
    as [[r w'] calls].
  destruct H as (_ & _ & Hw & Hmissing & _).
  destruct (Hmissing eq_refl) as [-> ->]. by rewrite Hw.
Defined.

Lemma registry_destroy_acc {W} (conn : RegistryGet W) resources w acc :
  testCheckAzureRMContainerRegistryDestroy conn resources w acc
  = let '(r, w', calls) :=
      testCheckAzureRMContainerRegistryDestroy conn resources w [] in
    (r, w', acc ++ calls).
Proof.
  revert w acc. induction resources as [|rs rest IH]; intros w acc; simpl.
  - by rewrite app_nil_r.
  - case_decide; [apply IH|].
    destruct (terraform.Primary rs) as [primary|];
      [|by rewrite app_nil_r].
    destruct (conn _ _ w) as [[resp err] w'].
    destruct err; [done|].
    destruct (autorest.StatusCode resp) as [code|]; [|done].
    case_decide; [done|].
    rewrite (IH w' (acc ++ _)), (IH w' [_]).
    destruct (testCheckAzureRMContainerRegistryDestroy conn rest w' [])
      as [[r w''] calls].
    by rewrite <- app_assoc.
Qed.

(** X18: whatever the order in which the resources of the state come,
    [testCheckAzureRMContainerRegistryDestroy] asks the client only for
    container registries, in that order and each at most once, skipping
    resources of every other type; and when it returns an error, the error
    is "still exists" for a response that came without error and with a
    status code other than 404. *)
Theorem registry_destroy_check {W : Type} (conn : RegistryGet W)
  (resources : list terraform.ResourceState) (w : W) :
  let '(r, w', calls) :=
    testCheckAzureRMContainerRegistryDestroy conn resources w [] in
  calls `prefix_of` omap registryKey resources
  ∧ match r with
    | Ok (Some e) =>
        ∃ resp code resourceGroup name w0 w1,
          e = StillExists resp
          ∧ autorest.StatusCode resp = Some code ∧ code ≠ 404
          ∧ last calls = Some (resourceGroup, name)
          ∧ conn resourceGroup name w0 = (resp, None, w1)
    | _ => True
    end.
Proof.
  revert w. induction resources as [|rs rest IH]; intros w; simpl.
  - split; [done|done].
  - unfold registryKey at 1.
    case_decide as Htype.
    { specialize (IH w).
      destruct (testCheckAzureRMContainerRegistryDestroy conn rest w [])
        as [[r w'] calls]. done. }
    destruct (terraform.Primary rs) as [primary|]; simpl;
      [|split; [apply prefix_nil|done]].
    destruct (conn _ _ w) as [[resp err] w'] eqn:Hconn.
    destruct err; [split; [by apply prefix_cons, prefix_nil|done]|].
    destruct (autorest.StatusCode resp) as [code|] eqn:Hcode;
      [|split; [by apply prefix_cons, prefix_nil|done]].
    case_decide as Hcode'.
    { split; [by apply prefix_cons, prefix_nil|].
      eexists resp, code, _, _, w, w'. done. }
    rewrite registry_destroy_acc. specialize (IH w').
    destruct (testCheckAzureRMContainerRegistryDestroy conn rest w' [])
      as [[r w''] calls].
    destruct IH as [Hprefix Hr]. split; [by apply prefix_cons|].
    destruct r as [[e|]|]; try done.
    destruct Hr as (resp' & code' & rg & n & w0 & w1 & -> & ? & ? & Hlast & ?).
    eexists resp', code', rg, n, w0, w1. repeat (split; [done|]).
    split; [|done]. destruct calls as [|c calls]; [done|].
    simpl in *. done.
Qed.

(** X19: [testCheckAzureRMContainerRegistryDestroy] takes an error of Get
    for good news: when the first container registry it comes to makes Get
    fail, it returns nil after that one call and looks at no further
    resource, whatever the rest of the state holds. *)
Theorem registry_destroy_stops_at_get_error {W : Type} (conn : RegistryGet W)
  (skipped rest : list terraform.ResourceState)
  (rs : terraform.ResourceState) (resourceGroup name : string)
  (resp : autorest.Response) (e : error) (w w' : W) :
  Forall (λ rs', terraform.Type_ rs' ≠ "azurerm_container_registry") skipped →
  registryKey rs = Some (resourceGroup, name) →
  conn resourceGroup name w = (resp, Some e, w') →
  testCheckAzureRMContainerRegistryDestroy conn (skipped ++ rs :: rest) w []
  = (Ok None, w', [(resourceGroup, name)]).
Proof.
  intros Hskipped Hkey Hconn.
  induction Hskipped as [|rs' skipped Hrs' _ IH]; simpl.
  - unfold registryKey in Hkey. case_decide; [done|].
    destruct (terraform.Primary rs) as [primary|]; [|done].
    simpl in Hkey. injection Hkey as <- <-. by rewrite Hconn.
  - by rewrite decide_True.
Qed.

Lemma registry_destroy_stops_at_get_error_witness :
  testCheckAzureRMContainerRegistryDestroy registryFails
    ([groupState] ++ registryState "acr1" :: [registryState "acr2"]) 0%nat []
  = (Ok None, 1%nat, [("rg1", "acr1")]).
Proof.
  apply (registry_destroy_stops_at_get_error registryFails [groupState]
           [registryState "acr2"] (registryState "acr1") "rg1" "acr1"
           {| autorest.StatusCode := None |}
           (ExternalError "connection reset") 0%nat 1%nat).
  - constructor; [done|constructor].
  - reflexivity.
  - reflexivity.
Defined.

(** X20: when the client answers every Get without error and with status
    404, and every container registry of the state has a primary instance,
    [testCheckAzureRMContainerRegistryDestroy] returns nil after asking for
    each container registry of the state, once, in order. *)
Theorem registry_destroy_all_gone {W : Type} (conn : RegistryGet W)
  (resources : list terraform.ResourceState) (w : W) :
  (∀ resourceGroup name w0,
     ∃ resp w1, conn resourceGroup name w0 = (resp, None, w1)
                ∧ autorest.StatusCode resp = Some 404) →
  Forall (λ rs, terraform.Type_ rs = "azurerm_container_registry" →
                is_Some (terraform.Primary rs)) resources →
  ∃ w', testCheckAzureRMContainerRegistryDestroy conn resources w []
        = (Ok None, w', omap registryKey resources).
Proof.
  intros Hconn Hall. revert w.
  induction Hall as [|rs rest Hrs _ IH]; intros w; simpl.
  - by exists w.
  - unfold registryKey at 1. case_decide as Htype; [apply IH|].
    destruct Hrs as [primary ->];
      [by destruct (decide (terraform.Type_ rs
                            = "azurerm_container_registry"))|].
    simpl.
    destruct (Hconn (path_lookup (terraform.Attributes primary)
                       "resource_group_name")
                (path_lookup (terraform.Attributes primary) "name") w)
      as (resp & w1 & -> & ->).
    rewrite decide_False by (unfold utils.StatusNotFound; naive_solver).
    rewrite registry_destroy_acc. destruct (IH w1) as [w' ->].
    by exists w'.
Qed.

Lemma registry_destroy_all_gone_witness :
  ∃ w', testCheckAzureRMContainerRegistryDestroy (registryAnswers 404)
          [registryState "acr1"; groupState; registryState "acr2"] 0%nat []
        = (Ok None, w',
           omap registryKey
             [registryState "acr1"; groupState; registryState "acr2"]).
Proof.
  apply (registry_destroy_all_gone (registryAnswers 404)).
  - intros rg n w0. by eexists _, _.
  - repeat (constructor; [intros _; by eexists|]). constructor.
Defined.
